(** * Pursuit simulation of [src/main.ts]: steering, integration, detection

    The program keeps all of its geometric state in mutable [THREE.Vector3]
    objects that are passed around by reference.  The embedding below
    therefore works over an explicit store of vector objects: every
    [new THREE.Vector3(..)] and every [clone()] allocates a fresh cell,
    every in-place method ([add], [sub], [multiplyScalar], ...) overwrites
    the cell of its receiver, and the classes of the program hold
    references into that store.

    JavaScript numbers are read as real numbers (exact arithmetic: no
    rounding, no NaN, no infinities); [Math.sqrt], [Math.acos] and
    [Math.PI] are the functions [sqrt], [acos] and the constant [PI] of the
    standard library of real numbers.

    What is stated over the real numbers is stated of the operations the
    program performs, in its order.  Where the program's own arithmetic
    matters, the rescaling inside [clampLength] and [normalize], the module
    [Double] gives the same methods over IEEE binary64 numbers, which are
    the numbers of JavaScript, and the bounds that hold only up to rounding
    are refuted there on concrete inputs. *)

From Stdlib Require Import Reals Lra Lia List Arith Psatz String.
From Stdlib Require Floats.PrimFloat Floats.FloatOps Floats.SpecFloat QArith.
Import ListNotations.
Local Open Scope R_scope.

(** ** The store of vector objects and the [THREE.Vector3] methods *)

Module THREE.

Record Vector3 : Type := mkVector3 { x : R; y : R; z : R }.

Definition zero : Vector3 := mkVector3 0 0 0.

(** Component-wise arithmetic on vector values. *)
Definition vadd (a b : Vector3) : Vector3 :=
  mkVector3 (x a + x b) (y a + y b) (z a + z b).

Definition vsub (a b : Vector3) : Vector3 :=
  mkVector3 (x a - x b) (y a - y b) (z a - z b).

Definition vscale (a : Vector3) (s : R) : Vector3 :=
  mkVector3 (x a * s) (y a * s) (z a * s).

Definition vopp (a : Vector3) : Vector3 :=
  mkVector3 (- x a) (- y a) (- z a).

Definition vdot (a b : Vector3) : R :=
  x a * x b + y a * y b + z a * z b.

Definition vlength (a : Vector3) : R :=
  sqrt (x a * x a + y a * y a + z a * z a).

(** A reference to a vector object, and the store: the content of every
    cell together with the next free reference. *)
Definition ref : Type := nat.

Record Heap : Type := mkHeap { cells : ref -> Vector3; next : ref }.

Definition load (h : Heap) (r : ref) : Vector3 := cells h r.

Definition store (r : ref) (v : Vector3) (h : Heap) : Heap :=
  mkHeap (fun r' => if Nat.eq_dec r' r then v else cells h r') (next h).

Definition alloc (v : Vector3) (h : Heap) : ref * Heap :=
  (next h,
   mkHeap (fun r' => if Nat.eq_dec r' (next h) then v else cells h r')
          (S (next h))).

Definition empty : Heap := mkHeap (fun _ => zero) 0%nat.

(** Computations over the store. *)
Definition M (A : Type) : Type := Heap -> A * Heap.

Definition ret {A : Type} (a : A) : M A := fun h => (a, h).

Definition bind {A B : Type} (c : M A) (k : A -> M B) : M B :=
  fun h => let (a, h') := c h in k a h'.

Definition exec {A : Type} (c : M A) (h : Heap) : Heap := snd (c h).
Definition eval {A : Type} (c : M A) (h : Heap) : A := fst (c h).

Definition read (r : ref) : M Vector3 := fun h => (load h r, h).

(** In-place update of the receiver; like the methods of three.js it
    gives the receiver back, so that calls can be chained. *)
Definition mutate (this : ref) (f : Heap -> Vector3) : M ref :=
  fun h => (this, store this (f h) h).

(** JavaScript [a || b] on numbers: [b] when [a] is zero. *)
Definition or_else (a b : R) : R := if Req_dec_T a 0 then b else a.

(** Modelled from the spec: [THREE.Vector3] is the vector class of the
    three.js library, which the program imports and whose code is not part
    of [src/].  The spec assumes its primitives (add, scale, normalize,
    clamp-length, dot product) and fixes their corner cases in section 4.2:
    clamping scales a vector down when its length exceeds the bound and
    leaves it unchanged when within the bound or zero, and normalizing the
    zero vector yields the zero vector.  The methods below follow the
    library's definitions: [divideScalar(s)] is [multiplyScalar(1 / s)],
    [normalize()] is [divideScalar(length() || 1)], and
    [clampLength(min, max)] is
    [divideScalar(length || 1).multiplyScalar(max(min, min(max, length)))]. *)
Definition new_Vector3 (x0 y0 z0 : R) : M ref := alloc (mkVector3 x0 y0 z0).

Definition clone (this : ref) : M ref := fun h => alloc (load h this) h.

Definition copy (this v : ref) : M ref := mutate this (fun h => load h v).

Definition add (this v : ref) : M ref :=
  mutate this (fun h => vadd (load h this) (load h v)).

Definition sub (this v : ref) : M ref :=
  mutate this (fun h => vsub (load h this) (load h v)).

Definition multiplyScalar (this : ref) (s : R) : M ref :=
  mutate this (fun h => vscale (load h this) s).

Definition divideScalar (this : ref) (s : R) : M ref :=
  multiplyScalar this (1 / s).

Definition setScalar (this : ref) (s : R) : M ref :=
  mutate this (fun _ => mkVector3 s s s).

Definition length (this : ref) : M R := fun h => (vlength (load h this), h).

Definition normalize (this : ref) : M ref :=
  bind (length this) (fun len => divideScalar this (or_else len 1)).

Definition clampLength (this : ref) (min max : R) : M ref :=
  bind (length this) (fun len =>
  bind (divideScalar this (or_else len 1)) (fun this' =>
  multiplyScalar this' (Rmax min (Rmin max len)))).

(** The same two operations on vector values.  Over the real numbers the
    division and the product cancel; in the program's arithmetic each of
    them rounds. *)
Definition vnormalize (a : Vector3) : Vector3 :=
  vscale a (1 / or_else (vlength a) 1).

Definition vclampLength (a : Vector3) (min max : R) : Vector3 :=
  vscale (vscale a (1 / or_else (vlength a) 1))
         (Rmax min (Rmin max (vlength a))).

End THREE.

Import THREE.

Declare Scope heap_scope.
Delimit Scope heap_scope with heap.
Notation "x <- c ;; k" := (bind c (fun x => k))
  (at level 61, c at next level, right associativity) : heap_scope.
Notation "c ;; k" := (bind c (fun _ => k))
  (at level 61, right associativity) : heap_scope.
Local Open Scope heap_scope.

(** ** [class Spaceship] *)

Module Spaceship.

Record t : Type := mk { position : ref; velocity : ref }.

(** The constructor stores the two references it is given. *)
Definition new (position velocity : ref) : t := mk position velocity.

(** [this.position.add(this.velocity.clone().multiplyScalar(dt))] *)
Definition update (this : t) (dt : R) : M unit :=
  step <- (c <- clone (velocity this) ;; multiplyScalar c dt) ;;
  add (position this) step ;;
  ret tt.

End Spaceship.

(** ** [class Pursuer extends Spaceship] *)

Module Pursuer.

Record t : Type := mk {
  super :> Spaceship.t;
  acceleration : ref;
  direction : ref;
  maxSpeed : R;
  maxSteerForce : R;
  visionDistance : R;
  visionAngle : R
}.

Definition position (this : t) : ref := Spaceship.position this.
Definition velocity (this : t) : ref := Spaceship.velocity this.

(** The field initialisers allocate [acceleration] and [direction]; the
    angle arrives in degrees and is kept in radians. *)
Definition new (position velocity : ref)
    (maxSpeed maxSteerForce visionDistance visionAngle : R) : M t :=
  let base := Spaceship.new position velocity in
  acceleration <- new_Vector3 0 0 0 ;;
  direction <- new_Vector3 0 0 0 ;;
  ret (mk base acceleration direction maxSpeed maxSteerForce visionDistance
          (visionAngle * (PI / 180))).

Definition update (this : t) (dt : R) : M unit :=
  scaled <- multiplyScalar (acceleration this) dt ;;
  add (velocity this) scaled ;;
  clampLength (velocity this) 0 (maxSpeed this) ;;
  step <- (c <- clone (velocity this) ;; multiplyScalar c dt) ;;
  add (position this) step ;;
  setScalar (acceleration this) 0 ;;
  (d <- copy (direction this) (velocity this) ;; normalize d) ;;
  ret tt.

Definition pursueTarget (this : t) (target : Spaceship.t) : M unit :=
  offsetToTarget <-
    (c <- clone (Spaceship.position target) ;; sub c (position this)) ;;
  force <- (c <- clone offsetToTarget ;; normalize c) ;;
  multiplyScalar force (maxSpeed this) ;;
  sub force (velocity this) ;;
  clampLength force 0 (maxSteerForce this) ;;
  add (acceleration this) force ;;
  ret tt.

(** Lines 63-66: the distance between the two positions. *)
Definition catchDistance (p tp : Vector3) : R :=
  let dx := x p - x tp in
  let dy := y p - y tp in
  let dz := z p - z tp in
  sqrt (dx * dx + dy * dy + dz * dz).

(** Line 76: the denominator before the zero test. *)
Definition catchDenominator (d tp : Vector3) : R :=
  let directionLengthSq := x d * x d + y d * y d + z d * z d in
  let targetLengthSq := x tp * x tp + y tp * y tp + z tp * z tp in
  sqrt (directionLengthSq * targetLengthSq).

(** Lines 81-84. *)
Definition catchDot (d tp : Vector3) : R :=
  x d * x tp + y d * y tp + z d * z tp.

(** Lines 68-91: the angle computed inside the range test, from the
    direction [d] and the target's position [tp]. *)
Definition catchAngle (d tp : Vector3) : R :=
  let denominator := catchDenominator d tp in
  let denominator :=
    if Req_dec_T denominator 0 then PI / 2 else denominator in
  let dot := catchDot d tp in
  let theta := dot / denominator in
  let theta :=
    if Rlt_dec theta (-1) then -1
    else if Rgt_dec theta 1 then 1
    else theta in
  acos theta.

Definition didCatchTarget (this : t) (target : Spaceship.t) : M bool :=
  p <- read (position this) ;;
  tp <- read (Spaceship.position target) ;;
  d <- read (direction this) ;;
  let distance := catchDistance p tp in
  if Rle_dec distance (visionDistance this) then
    let angle := catchAngle d tp in
    if Rle_dec angle (visionAngle this / 2) then ret true else ret false
  else ret false.

End Pursuer.

(** ** [class Settings] *)

Module Settings.

Record t : Type := mk {
  targetVelocity : ref;
  pursuerPosition : ref;
  pursuerVelocity : ref;
  maxSpeed : R;
  maxSteerForce : R;
  visionDistance : R;
  visionAngle : R
}.

Definition new : M t :=
  targetVelocity <- new_Vector3 10 0 0 ;;
  pursuerPosition <- new_Vector3 (-10) (-5) 5 ;;
  pursuerVelocity <- new_Vector3 (-10) 8 4 ;;
  ret (mk targetVelocity pursuerPosition pursuerVelocity 20 5 5 45).

End Settings.

(** ** [class Simulation] *)

Module Simulation.

Record t : Type := mk {
  target : Spaceship.t;
  pursuer : Pursuer.t;
  time : R;
  finished : bool
}.

Definition new (settings : Settings.t) : M t :=
  target <-
    (p <- new_Vector3 0 0 0 ;;
     v <- clone (Settings.targetVelocity settings) ;;
     ret (Spaceship.new p v)) ;;
  pursuer <-
    (p <- clone (Settings.pursuerPosition settings) ;;
     v <- clone (Settings.pursuerVelocity settings) ;;
     Pursuer.new p v
       (Settings.maxSpeed settings) (Settings.maxSteerForce settings)
       (Settings.visionDistance settings) (Settings.visionAngle settings)) ;;
  ret (mk target pursuer 0 false).

Definition update (this : t) (dt : R) : M t :=
  if finished this then ret this
  else
    let time' := time this + dt in
    Pursuer.pursueTarget (pursuer this) (target this) ;;
    Spaceship.update (target this) dt ;;
    Pursuer.update (pursuer this) dt ;;
    caught <- Pursuer.didCatchTarget (pursuer this) (target this) ;;
    ret (mk (target this) (pursuer this) time' caught).

(** The driver: one [update] per frame, with the frame's [dt]. *)
Fixpoint run (this : t) (dts : list R) : M t :=
  match dts with
  | [] => ret this
  | dt :: rest => this' <- update this dt ;; run this' rest
  end.

End Simulation.


(** ** The vector methods in the program's own arithmetic

    The same methods of three.js on vector values whose components are
    binary64 numbers, every operation rounded as JavaScript rounds it and
    performed in the order of the library: [length()] is
    [sqrt((x*x + y*y) + z*z)], [divideScalar(s)] multiplies each component
    by [1 / s], and [clampLength] divides by the length and then multiplies
    by [max(min, Math.min(max, length))]. *)

Module Double.

Import PrimFloat FloatOps SpecFloat.
Local Open Scope float_scope.

Record Vector3 : Type := mk { x : float; y : float; z : float }.

(** [a || b] on numbers: [b] when [a] is zero or NaN. *)
Definition or_else (a b : float) : float :=
  if ((a =? 0) || negb (a =? a))%bool then b else a.

(** [Math.min] and [Math.max], on numbers that are not NaN. *)
Definition Math_min (a b : float) : float := if a <? b then a else b.
Definition Math_max (a b : float) : float := if a <? b then b else a.

Definition length (v : Vector3) : float :=
  sqrt (x v * x v + y v * y v + z v * z v).

Definition add (a b : Vector3) : Vector3 :=
  mk (x a + x b) (y a + y b) (z a + z b).

Definition sub (a b : Vector3) : Vector3 :=
  mk (x a - x b) (y a - y b) (z a - z b).

Definition multiplyScalar (v : Vector3) (s : float) : Vector3 :=
  mk (x v * s) (y v * s) (z v * s).

Definition divideScalar (v : Vector3) (s : float) : Vector3 :=
  multiplyScalar v (1 / s).

Definition normalize (v : Vector3) : Vector3 :=
  divideScalar v (or_else (length v) 1).

Definition clampLength (v : Vector3) (min max : float) : Vector3 :=
  let len := length v in
  multiplyScalar (divideScalar v (or_else len 1))
                 (Math_max min (Math_min max len)).



(** The rational number that a finite binary64 number is, and the exact
    square of the Euclidean length of a stored vector. *)
Definition exact (f : float) : QArith_base.Q :=
  match Prim2SF f with
  | S754_finite s m e =>
      let n := if s then Z.neg m else Z.pos m in
      match e with
      | Z0 => QArith_base.Qmake n 1
      | Zpos k => QArith_base.Qmake (n * 2 ^ Zpos k) 1
      | Zneg k => QArith_base.Qmake n (2 ^ k)
      end
  | _ => QArith_base.Qmake 0 1
  end.




(** Inputs within the ranges of the control panel on which the rounding of
    the rescaling shows. *)
Definition origin : Vector3 := mk 0 0 0.

Definition fastLimit : float := 20.


(** A vector of length 18.5, within a bound of 20, and a vector to
    normalize. *)
Definition shortVector : Vector3 := mk (-11) (-11) (-10).
Definition someVector : Vector3 := mk (-11) (-11) (-2).
Definition one : float := 1.

End Double.

(** ** Well-formed object graphs

    A reference is allocated when it lies below the next free reference.
    The objects built by the constructors keep their vectors in pairwise
    distinct, allocated cells. *)

Definition allocated (h : Heap) (r : ref) : Prop := (r < next h)%nat.

Definition Spaceship_refs (s : Spaceship.t) : list ref :=
  [Spaceship.position s; Spaceship.velocity s].

Definition Pursuer_refs (p : Pursuer.t) : list ref :=
  [Pursuer.position p; Pursuer.velocity p;
   Pursuer.acceleration p; Pursuer.direction p].

Definition Settings_refs (s : Settings.t) : list ref :=
  [Settings.targetVelocity s; Settings.pursuerPosition s;
   Settings.pursuerVelocity s].

Definition Simulation_refs (sim : Simulation.t) : list ref :=
  Spaceship_refs (Simulation.target sim) ++ Pursuer_refs (Simulation.pursuer sim).

Definition Pursuer_wf (p : Pursuer.t) (h : Heap) : Prop :=
  NoDup (Pursuer_refs p) /\ Forall (allocated h) (Pursuer_refs p).

Definition Settings_wf (s : Settings.t) (h : Heap) : Prop :=
  Forall (allocated h) (Settings_refs s).

Definition Simulation_wf (sim : Simulation.t) (h : Heap) : Prop :=
  NoDup (Simulation_refs sim) /\ Forall (allocated h) (Simulation_refs sim).

(** ** Values of a simulation

    What an observer reads from a simulation in a given store: the six
    vectors, the four parameters of the pursuer, the clock and the flag. *)

Record Snapshot : Type := mkSnapshot {
  targetPosition : Vector3;
  targetVelocity : Vector3;
  pursuerPosition : Vector3;
  pursuerVelocity : Vector3;
  pursuerAcceleration : Vector3;
  pursuerDirection : Vector3;
  pursuerMaxSpeed : R;
  pursuerMaxSteerForce : R;
  pursuerVisionDistance : R;
  pursuerVisionAngle : R;
  elapsed : R;
  halted : bool
}.

Definition snapshot (sim : Simulation.t) (h : Heap) : Snapshot :=
  let t := Simulation.target sim in
  let p := Simulation.pursuer sim in
  mkSnapshot
    (load h (Spaceship.position t)) (load h (Spaceship.velocity t))
    (load h (Pursuer.position p)) (load h (Pursuer.velocity p))
    (load h (Pursuer.acceleration p)) (load h (Pursuer.direction p))
    (Pursuer.maxSpeed p) (Pursuer.maxSteerForce p)
    (Pursuer.visionDistance p) (Pursuer.visionAngle p)
    (Simulation.time sim) (Simulation.finished sim).

(** The field values of a [Settings] object. *)
Record SettingsValues : Type := mkSettingsValues {
  sv_targetVelocity : Vector3;
  sv_pursuerPosition : Vector3;
  sv_pursuerVelocity : Vector3;
  sv_maxSpeed : R;
  sv_maxSteerForce : R;
  sv_visionDistance : R;
  sv_visionAngle : R
}.

Definition Settings_values (s : Settings.t) (h : Heap) : SettingsValues :=
  mkSettingsValues
    (load h (Settings.targetVelocity s)) (load h (Settings.pursuerPosition s))
    (load h (Settings.pursuerVelocity s))
    (Settings.maxSpeed s) (Settings.maxSteerForce s)
    (Settings.visionDistance s) (Settings.visionAngle s).

(** The steering force of [pursueTarget], on values: from the pursuer's
    position [pp] and velocity [pv] and the target's position [tp]. *)
Definition steeringForce (pp pv tp : Vector3) (maxSpeed maxSteerForce : R)
  : Vector3 :=
  vclampLength (vsub (vscale (vnormalize (vsub tp pp)) maxSpeed) pv)
               0 maxSteerForce.

(** The outcome of [didCatchTarget], on values. *)
Definition caught (p d tp : Vector3) (visionDistance visionAngle : R) : bool :=
  if Rle_dec (Pursuer.catchDistance p tp) visionDistance then
    if Rle_dec (Pursuer.catchAngle d tp) (visionAngle / 2) then true else false
  else false.

(** One [Simulation.update] and the constructor, on snapshots.  They are
    proved below to be what the store-level code computes on well-formed
    object graphs ([update_snapshot], [new_snapshot]). *)
Definition Snapshot_step (dt : R) (s : Snapshot) : Snapshot :=
  if halted s then s
  else
    let acc := vadd (pursuerAcceleration s)
                 (steeringForce (pursuerPosition s) (pursuerVelocity s)
                    (targetPosition s) (pursuerMaxSpeed s)
                    (pursuerMaxSteerForce s)) in
    let tpos := vadd (targetPosition s) (vscale (targetVelocity s) dt) in
    let vel := vclampLength (vadd (pursuerVelocity s) (vscale acc dt))
                 0 (pursuerMaxSpeed s) in
    let pos := vadd (pursuerPosition s) (vscale vel dt) in
    let dir := vnormalize vel in
    mkSnapshot tpos (targetVelocity s) pos vel (mkVector3 0 0 0) dir
      (pursuerMaxSpeed s) (pursuerMaxSteerForce s)
      (pursuerVisionDistance s) (pursuerVisionAngle s)
      (elapsed s + dt)
      (caught pos dir tpos (pursuerVisionDistance s) (pursuerVisionAngle s)).

Definition Snapshot_run (s : Snapshot) (dts : list R) : Snapshot :=
  fold_left (fun s dt => Snapshot_step dt s) dts s.

Definition Snapshot_init (v : SettingsValues) : Snapshot :=
  mkSnapshot (mkVector3 0 0 0) (sv_targetVelocity v)
    (sv_pursuerPosition v) (sv_pursuerVelocity v)
    (mkVector3 0 0 0) (mkVector3 0 0 0)
    (sv_maxSpeed v) (sv_maxSteerForce v) (sv_visionDistance v)
    (sv_visionAngle v * (PI / 180)) 0 false.

(** ** The angle as the specification words it

    [acos] of the cosine between the direction and the target's position
    vector from the world origin, the cosine clamped to [[-1, 1]]. *)
Definition clamp (v lo hi : R) : R := Rmax lo (Rmin hi v).

Definition specAngle (d tp : Vector3) : R :=
  acos (clamp (vdot d tp / (vlength d * vlength tp)) (-1) 1).

(** ** A concrete run: the default settings, as [init()] builds them *)

Definition demoSettings : Settings.t := eval Settings.new empty.
Definition demoHeap0 : Heap := exec Settings.new empty.
Definition demoSim : Simulation.t := eval (Simulation.new demoSettings) demoHeap0.
Definition demoHeap : Heap := exec (Simulation.new demoSettings) demoHeap0.

(** A second start: the pursuer is placed at the origin, where the target
    starts.  Its direction is still the zero vector of the initialiser. *)
Definition newOriginSettings : M Settings.t :=
  targetVelocity <- new_Vector3 10 0 0 ;;
  pursuerPosition <- new_Vector3 0 0 0 ;;
  pursuerVelocity <- new_Vector3 (-10) 8 4 ;;
  ret (Settings.mk targetVelocity pursuerPosition pursuerVelocity 20 5 5 45).

Definition originSettings : Settings.t := eval newOriginSettings empty.
Definition originHeap0 : Heap := exec newOriginSettings empty.
Definition originSim : Simulation.t :=
  eval (Simulation.new originSettings) originHeap0.
Definition originHeap : Heap :=
  exec (Simulation.new originSettings) originHeap0.


(** A simulation that has caught its target. *)
Definition finishedSim : Simulation.t :=
  Simulation.mk (Simulation.target demoSim) (Simulation.pursuer demoSim) 3 true.

(** ** The scene adapter

    The part of the file around the three classes: the Pause button and
    the per-frame callback [animate()].  The meshes keep their positions in
    vector objects of the same store. *)

(** [Vector3.set(x, y, z)] of three.js overwrites the three components. *)
Definition Vector3_set (this : ref) (x0 y0 z0 : R) : M ref :=
  mutate this (fun _ => mkVector3 x0 y0 z0).

(** The Pause entry of the control panel (lines 240-247): it flips
    [sim.finished] and names the button after the new state. *)
Definition Pause (sim : Simulation.t) : Simulation.t * string :=
  let sim' :=
    Simulation.mk (Simulation.target sim) (Simulation.pursuer sim)
      (Simulation.time sim) (negb (Simulation.finished sim)) in
  (sim', if Simulation.finished sim' then "Unpause"%string else "Pause"%string).

Module Scene.

(** The vector objects that [animate()] writes: [targetMesh.position],
    [pursuerMesh.position], [visionCone.position] and [visionConeAxis]. *)
Record t : Type := mk {
  targetMesh_position : ref;
  pursuerMesh_position : ref;
  visionCone_position : ref;
  visionConeAxis : ref
}.

End Scene.

(** [animate()] (lines 275-295) for a frame whose clock delta is [delta].
    It gives back the simulation object and the angle [radians] that it
    hands, with [visionConeAxis], to [visionCone.setRotationFromAxisAngle].
    The calls that only schedule, move the camera, print the clock or draw
    ([requestAnimationFrame], [controls.update], [innerText],
    [renderer.render]) touch none of these objects and are left out. *)
Definition animate (scene : Scene.t) (sim : Simulation.t) (delta : R)
  : M (Simulation.t * R) :=
  sim <- Simulation.update sim delta ;;
  copy (Scene.targetMesh_position scene)
       (Spaceship.position (Simulation.target sim)) ;;
  copy (Scene.pursuerMesh_position scene)
       (Pursuer.position (Simulation.pursuer sim)) ;;
  direction <-
    (c <- clone (Pursuer.velocity (Simulation.pursuer sim)) ;; normalize c) ;;
  d <- read direction ;;
  let radians := acos (y d) in
  Vector3_set (Scene.visionConeAxis scene) (z d) 0 (- x d) ;;
  copy (Scene.visionCone_position scene)
       (Pursuer.position (Simulation.pursuer sim)) ;;
  ret (sim, radians).

Definition Scene_refs (scene : Scene.t) : list ref :=
  [Scene.targetMesh_position scene; Scene.pursuerMesh_position scene;
   Scene.visionCone_position scene; Scene.visionConeAxis scene].

(** Sums over the frames of a run. *)
Definition sumR (dts : list R) : R := fold_right Rplus 0 dts.

(** After a frame that ran: the accumulator is cleared and the direction
    is the normalized velocity. *)
Definition settled (s : Snapshot) : Prop :=
  pursuerAcceleration s = zero
  /\ pursuerDirection s = vnormalize (pursuerVelocity s).

(** The flag is the outcome of the detection test on the values shown. *)
Definition flagged (s : Snapshot) : Prop :=
  halted s =
    caught (pursuerPosition s) (pursuerDirection s) (targetPosition s)
           (pursuerVisionDistance s) (pursuerVisionAngle s).

(** A running simulation whose target rests at the origin, under a vision
    angle of at most [PI / 2]. *)
Definition resting (s : Snapshot) : Prop :=
  targetPosition s = zero /\ targetVelocity s = zero
  /\ pursuerVisionAngle s <= PI / 2 /\ halted s = false.

(** A start with a target that does not move. *)
Definition newStillSettings : M Settings.t :=
  targetVelocity <- new_Vector3 0 0 0 ;;
  pursuerPosition <- new_Vector3 (-10) (-5) 5 ;;
  pursuerVelocity <- new_Vector3 (-10) 8 4 ;;
  ret (Settings.mk targetVelocity pursuerPosition pursuerVelocity 20 5 5 45).

Definition stillSettings : Settings.t := eval newStillSettings empty.
Definition stillHeap0 : Heap := exec newStillSettings empty.
Definition stillSim : Simulation.t :=
  eval (Simulation.new stillSettings) stillHeap0.
Definition stillHeap : Heap := exec (Simulation.new stillSettings) stillHeap0.


(** A start on course: the pursuer 3 behind the origin on the x axis,
    already at full speed towards it. *)
Definition newCourseSettings : M Settings.t :=
  targetVelocity <- new_Vector3 10 0 0 ;;
  pursuerPosition <- new_Vector3 (-3) 0 0 ;;
  pursuerVelocity <- new_Vector3 20 0 0 ;;
  ret (Settings.mk targetVelocity pursuerPosition pursuerVelocity 20 5 5 45).

Definition courseHeap0 : Heap := exec newCourseSettings empty.
Definition courseSim : Simulation.t :=
  eval (Simulation.new (eval newCourseSettings empty)) courseHeap0.
Definition courseHeap : Heap :=
  exec (Simulation.new (eval newCourseSettings empty)) courseHeap0.

(** The pursuer at the origin heading along x, with the target 3 ahead of
    it, and 3 behind it, on the x axis. *)
Definition aheadHeap : Heap :=
  store (Pursuer.direction (Simulation.pursuer originSim)) (mkVector3 1 0 0)
    (store (Spaceship.position (Simulation.target originSim))
           (mkVector3 3 0 0) originHeap).

Definition behindHeap : Heap :=
  store (Pursuer.direction (Simulation.pursuer originSim)) (mkVector3 1 0 0)
    (store (Spaceship.position (Simulation.target originSim))
           (mkVector3 (-3) 0 0) originHeap).

(** Pursuers built with a negative angle and with a full turn. *)
Definition blindPursuer : Pursuer.t :=
  eval (Pursuer.new 5%nat 6%nat 20 5 5 (-45)) demoHeap.

Definition allRoundPursuer : Pursuer.t :=
  eval (Pursuer.new 5%nat 6%nat 20 5 5 360) demoHeap.

(** The scene's four vectors and the simulation's six are ten distinct
    objects of the store. *)
Definition Scene_wf (scene : Scene.t) (sim : Simulation.t) (h : Heap) : Prop :=
  NoDup (Scene_refs scene ++ Simulation_refs sim)
  /\ Forall (allocated h) (Scene_refs scene ++ Simulation_refs sim).

(** The scene of the default start: its four vectors are allocated after
    the simulation, as [init()] does. *)
Definition newScene : M Scene.t :=
  targetMesh_position <- new_Vector3 0 0 0 ;;
  pursuerMesh_position <- new_Vector3 0 0 0 ;;
  visionCone_position <- new_Vector3 0 0 0 ;;
  visionConeAxis <- new_Vector3 0 1 0 ;;
  ret (Scene.mk targetMesh_position pursuerMesh_position visionCone_position
         visionConeAxis).

Definition demoScene : Scene.t := eval newScene demoHeap.
Definition demoSceneHeap : Heap := exec newScene demoHeap.

(** ** Reading the store after writes and allocations *)

Section StoreFacts.

Lemma exec_bind {A B : Type} (c : M A) (k : A -> M B) (h : Heap) :
  exec (bind c k) h = exec (k (eval c h)) (exec c h).
Proof. unfold exec, eval, bind. now destruct (c h). Qed.

Lemma eval_bind {A B : Type} (c : M A) (k : A -> M B) (h : Heap) :
  eval (bind c k) h = eval (k (eval c h)) (exec c h).
Proof. unfold exec, eval, bind. now destruct (c h). Qed.

Lemma exec_ret {A : Type} (a : A) (h : Heap) : exec (ret a) h = h.
Proof. reflexivity. Qed.

Lemma eval_ret {A : Type} (a : A) (h : Heap) : eval (ret a) h = a.
Proof. reflexivity. Qed.

Lemma eval_mutate (this : ref) (f : Heap -> Vector3) (h : Heap) :
  eval (mutate this f) h = this.
Proof. reflexivity. Qed.

Lemma next_mutate (this : ref) (f : Heap -> Vector3) (h : Heap) :
  next (exec (mutate this f) h) = next h.
Proof. reflexivity. Qed.

Lemma load_mutate_same (this : ref) (f : Heap -> Vector3) (h : Heap) :
  load (exec (mutate this f) h) this = f h.
Proof.
  unfold load, exec, mutate, store; cbn [snd cells].
  destruct (Nat.eq_dec this this) as [E | E];
    first [reflexivity | contradiction].
Qed.

Lemma load_mutate_other (this r : ref) (f : Heap -> Vector3) (h : Heap) :
  r <> this -> load (exec (mutate this f) h) r = load h r.
Proof.
  intros Hne. unfold load, exec, mutate, store; cbn [snd cells].
  destruct (Nat.eq_dec r this) as [E | E];
    first [reflexivity | contradiction].
Qed.

Lemma eval_clone (this : ref) (h : Heap) : eval (clone this) h = next h.
Proof. reflexivity. Qed.

Lemma next_clone (this : ref) (h : Heap) :
  next (exec (clone this) h) = S (next h).
Proof. reflexivity. Qed.

Lemma load_clone_new (this r : ref) (h : Heap) :
  r = next h -> load (exec (clone this) h) r = load h this.
Proof.
  intros ->. unfold load, exec, clone, alloc; cbn [snd cells].
  destruct (Nat.eq_dec (next h) (next h)) as [E | E];
    first [reflexivity | contradiction].
Qed.

Lemma load_clone_old (this r : ref) (h : Heap) :
  r <> next h -> load (exec (clone this) h) r = load h r.
Proof.
  intros Hne. unfold load, exec, clone, alloc; cbn [snd cells].
  destruct (Nat.eq_dec r (next h)) as [E | E];
    first [reflexivity | contradiction].
Qed.

Lemma eval_new_Vector3 (a b c : R) (h : Heap) :
  eval (new_Vector3 a b c) h = next h.
Proof. reflexivity. Qed.

Lemma next_new_Vector3 (a b c : R) (h : Heap) :
  next (exec (new_Vector3 a b c) h) = S (next h).
Proof. reflexivity. Qed.

Lemma load_new_Vector3_new (a b c : R) (r : ref) (h : Heap) :
  r = next h -> load (exec (new_Vector3 a b c) h) r = mkVector3 a b c.
Proof.
  intros ->. unfold load, exec, new_Vector3, alloc; cbn [snd cells].
  destruct (Nat.eq_dec (next h) (next h)) as [E | E];
    first [reflexivity | contradiction].
Qed.

Lemma load_new_Vector3_old (a b c : R) (r : ref) (h : Heap) :
  r <> next h -> load (exec (new_Vector3 a b c) h) r = load h r.
Proof.
  intros Hne. unfold load, exec, new_Vector3, alloc; cbn [snd cells].
  destruct (Nat.eq_dec r (next h)) as [E | E];
    first [reflexivity | contradiction].
Qed.

Lemma exec_length (this : ref) (h : Heap) : exec (length this) h = h.
Proof. reflexivity. Qed.

Lemma eval_length (this : ref) (h : Heap) :
  eval (length this) h = vlength (load h this).
Proof. reflexivity. Qed.

(** [normalize] and [clampLength] write their receiver only, and what
    they write is the value-level operation on its content. *)
Lemma eval_normalize (this : ref) (h : Heap) : eval (normalize this) h = this.
Proof. reflexivity. Qed.

Lemma next_normalize (this : ref) (h : Heap) :
  next (exec (normalize this) h) = next h.
Proof. reflexivity. Qed.

Lemma load_normalize_same (this : ref) (h : Heap) :
  load (exec (normalize this) h) this = vnormalize (load h this).
Proof.
  unfold normalize, divideScalar, multiplyScalar.
  rewrite exec_bind, exec_length, eval_length, load_mutate_same.
  reflexivity.
Qed.

Lemma load_normalize_other (this r : ref) (h : Heap) :
  r <> this -> load (exec (normalize this) h) r = load h r.
Proof.
  intros Hne. unfold normalize, divideScalar, multiplyScalar.
  rewrite exec_bind, exec_length, load_mutate_other by assumption.
  reflexivity.
Qed.

Lemma eval_clampLength (this : ref) (lo hi : R) (h : Heap) :
  eval (clampLength this lo hi) h = this.
Proof. reflexivity. Qed.

Lemma next_clampLength (this : ref) (lo hi : R) (h : Heap) :
  next (exec (clampLength this lo hi) h) = next h.
Proof. reflexivity. Qed.

Lemma load_clampLength_same (this : ref) (lo hi : R) (h : Heap) :
  load (exec (clampLength this lo hi) h) this =
    vclampLength (load h this) lo hi.
Proof.
  unfold clampLength, divideScalar, multiplyScalar.
  rewrite !exec_bind, exec_length, eval_length, eval_mutate.
  rewrite !load_mutate_same. reflexivity.
Qed.

Lemma load_clampLength_other (this r : ref) (lo hi : R) (h : Heap) :
  r <> this -> load (exec (clampLength this lo hi) h) r = load h r.
Proof.
  intros Hne. unfold clampLength, divideScalar, multiplyScalar.
  rewrite !exec_bind, exec_length, eval_length, eval_mutate.
  rewrite !load_mutate_other by assumption. reflexivity.
Qed.

End StoreFacts.

Lemma allocated_mono (h h' : Heap) (r : ref) :
  (next h <= next h')%nat -> allocated h r -> allocated h' r.
Proof. unfold allocated; lia. Qed.

(** Bring a method body to a sequence of primitive steps, with the
    references of its temporaries made explicit. *)
Ltac heap_steps :=
  unfold Spaceship.update, Pursuer.update, Pursuer.pursueTarget,
    add, sub, copy, multiplyScalar, setScalar;
  repeat first
    [ rewrite exec_bind | rewrite eval_bind
    | rewrite exec_ret | rewrite eval_ret
    | rewrite eval_mutate | rewrite eval_clone | rewrite eval_new_Vector3
    | rewrite eval_normalize | rewrite eval_clampLength
    | rewrite next_mutate | rewrite next_clone | rewrite next_new_Vector3
    | rewrite next_normalize | rewrite next_clampLength ].

(** A reference differs from another one: by the hypotheses, or because
    one of them is allocated and the other is fresh. *)
Ltac solve_ref :=
  unfold allocated in *;
  repeat first
    [ rewrite next_mutate | rewrite next_clone | rewrite next_new_Vector3
    | rewrite next_normalize | rewrite next_clampLength ];
  lia.

(** Read a cell after a sequence of primitive steps. *)
Ltac heap_loads :=
  repeat first
    [ rewrite load_mutate_same
    | rewrite load_clone_new by solve_ref
    | rewrite load_new_Vector3_new by solve_ref
    | rewrite load_normalize_same
    | rewrite load_clampLength_same
    | rewrite load_mutate_other by solve_ref
    | rewrite load_clone_old by solve_ref
    | rewrite load_new_Vector3_old by solve_ref
    | rewrite load_normalize_other by solve_ref
    | rewrite load_clampLength_other by solve_ref ].

Ltac refs_unpack :=
  unfold Simulation_wf, Pursuer_wf, Settings_wf, Simulation_refs,
    Pursuer_refs, Spaceship_refs, Settings_refs in *;
  cbn [app] in *;
  repeat match goal with
    | H : _ /\ _ |- _ => destruct H
    | H : NoDup (_ :: _) |- _ => apply NoDup_cons_iff in H
    | H : Forall _ (_ :: _) |- _ => apply Forall_cons_iff in H
    end;
  cbn [In] in *.

(** ** Lengths of vectors *)

Section VectorFacts.

Lemma sumsq_nonneg (a b c : R) : 0 <= a * a + b * b + c * c.
Proof. nra. Qed.

Lemma sumsq_zero (a b c : R) :
  a * a + b * b + c * c = 0 -> a = 0 /\ b = 0 /\ c = 0.
Proof. intros H. repeat split; nra. Qed.

Lemma vlength_nonneg (v : Vector3) : 0 <= vlength v.
Proof. apply sqrt_pos. Qed.

Lemma vlength_zero : vlength zero = 0.
Proof.
  unfold vlength, zero; cbn [x y z].
  replace (0 * 0 + 0 * 0 + 0 * 0) with 0 by ring. apply sqrt_0.
Qed.

Lemma vlength_eq_0 (v : Vector3) : vlength v = 0 -> v = zero.
Proof.
  unfold vlength; intros H.
  apply sqrt_eq_0 in H; [| apply sumsq_nonneg].
  apply sumsq_zero in H. destruct v as [a b c]; cbn [x y z] in H.
  destruct H as (-> & -> & ->). reflexivity.
Qed.

Lemma vlength_vscale (v : Vector3) (s : R) :
  vlength (vscale v s) = Rabs s * vlength v.
Proof.
  unfold vlength, vscale; cbn [x y z].
  replace (x v * s * (x v * s) + y v * s * (y v * s) + z v * s * (z v * s))
    with (Rsqr s * (x v * x v + y v * y v + z v * z v))
    by (unfold Rsqr; ring).
  rewrite sqrt_mult_alt by apply Rle_0_sqr.
  rewrite sqrt_Rsqr_abs. reflexivity.
Qed.

Lemma vsub_self (v : Vector3) : vsub v v = zero.
Proof. unfold vsub, zero. f_equal; ring. Qed.


Lemma vscale_zero (s : R) : vscale zero s = zero.
Proof. unfold vscale, zero; cbn [x y z]. f_equal; ring. Qed.

Lemma vnormalize_zero : vnormalize zero = zero.
Proof. unfold vnormalize. apply vscale_zero. Qed.



End VectorFacts.

(** ** What each method does to the store *)

Section MethodFacts.

Lemma Spaceship_update_effect (s : Spaceship.t) (dt : R) (h : Heap) :
  allocated h (Spaceship.position s) ->
  allocated h (Spaceship.velocity s) ->
  let h' := exec (Spaceship.update s dt) h in
  load h' (Spaceship.position s) =
    vadd (load h (Spaceship.position s))
         (vscale (load h (Spaceship.velocity s)) dt)
  /\ (forall r, allocated h r -> r <> Spaceship.position s ->
                load h' r = load h r)
  /\ (next h <= next h')%nat.
Proof.
  intros Hp Hv h'; subst h'. heap_steps.
  split; [| split].
  - heap_loads. reflexivity.
  - intros r Hr Hne. heap_loads. reflexivity.
  - lia.
Qed.

Lemma pursueTarget_effect (p : Pursuer.t) (t : Spaceship.t) (h : Heap) :
  allocated h (Pursuer.position p) ->
  allocated h (Pursuer.velocity p) ->
  allocated h (Pursuer.acceleration p) ->
  allocated h (Spaceship.position t) ->
  let h' := exec (Pursuer.pursueTarget p t) h in
  load h' (Pursuer.acceleration p) =
    vadd (load h (Pursuer.acceleration p))
         (steeringForce (load h (Pursuer.position p))
            (load h (Pursuer.velocity p)) (load h (Spaceship.position t))
            (Pursuer.maxSpeed p) (Pursuer.maxSteerForce p))
  /\ (forall r, allocated h r -> r <> Pursuer.acceleration p ->
                load h' r = load h r)
  /\ (next h <= next h')%nat.
Proof.
  intros Hp Hv Ha Ht h'; subst h'. heap_steps.
  split; [| split].
  - heap_loads. reflexivity.
  - intros r Hr Hne. heap_loads. reflexivity.
  - lia.
Qed.

Lemma Pursuer_update_effect (p : Pursuer.t) (dt : R) (h : Heap) :
  Pursuer_wf p h ->
  let h' := exec (Pursuer.update p dt) h in
  let vel := vclampLength
               (vadd (load h (Pursuer.velocity p))
                     (vscale (load h (Pursuer.acceleration p)) dt))
               0 (Pursuer.maxSpeed p) in
  load h' (Pursuer.velocity p) = vel
  /\ load h' (Pursuer.position p) =
       vadd (load h (Pursuer.position p)) (vscale vel dt)
  /\ load h' (Pursuer.acceleration p) = mkVector3 0 0 0
  /\ load h' (Pursuer.direction p) = vnormalize vel
  /\ (forall r, allocated h r -> ~ In r (Pursuer_refs p) ->
                load h' r = load h r)
  /\ (next h <= next h')%nat.
Proof.
  intros Hwf h' vel; subst h' vel. refs_unpack. heap_steps.
  repeat split.
  - heap_loads. reflexivity.
  - heap_loads. reflexivity.
  - heap_loads. reflexivity.
  - heap_loads. reflexivity.
  - intros r Hr Hne. heap_loads. reflexivity.
  - lia.
Qed.

End MethodFacts.

(** Side conditions of the frame lemmas: a reference is allocated, or
    differs from the references that are written. *)
Ltac solve_frame :=
  first [ reflexivity
        | assumption
        | solve [eauto using allocated_mono, Nat.le_trans]
        | solve [unfold Pursuer_refs in *; cbn [In] in *;
                 intuition congruence] ].

(** ** One frame of the simulation *)

Section SimulationFacts.

(** [didCatchTarget] only reads the store. *)
Lemma didCatchTarget_run (p : Pursuer.t) (t : Spaceship.t) (h : Heap) :
  Pursuer.didCatchTarget p t h =
    (caught (load h (Pursuer.position p)) (load h (Pursuer.direction p))
            (load h (Spaceship.position t))
            (Pursuer.visionDistance p) (Pursuer.visionAngle p), h).
Proof.
  unfold Pursuer.didCatchTarget, caught, bind, read, ret.
  destruct (Rle_dec _ _); [destruct (Rle_dec _ _) |]; reflexivity.
Qed.

Lemma exec_didCatchTarget (p : Pursuer.t) (t : Spaceship.t) (h : Heap) :
  exec (Pursuer.didCatchTarget p t) h = h.
Proof. unfold exec. now rewrite didCatchTarget_run. Qed.

Lemma Simulation_update_finished (sim : Simulation.t) (dt : R) (h : Heap) :
  Simulation.finished sim = true -> Simulation.update sim dt h = (sim, h).
Proof. intros Hfin. unfold Simulation.update. now rewrite Hfin. Qed.

Lemma Simulation_update_running (sim : Simulation.t) (dt : R) (h : Heap) :
  Simulation.finished sim = false ->
  let p := Simulation.pursuer sim in
  let t := Simulation.target sim in
  let h1 := exec (Pursuer.pursueTarget p t) h in
  let h2 := exec (Spaceship.update t dt) h1 in
  let h3 := exec (Pursuer.update p dt) h2 in
  Simulation.update sim dt h =
    (Simulation.mk t p (Simulation.time sim + dt)
       (eval (Pursuer.didCatchTarget p t) h3), h3).
Proof.
  intros Hfin p t h1 h2 h3; subst p t h1 h2 h3.
  unfold Simulation.update, exec, eval. rewrite Hfin.
  unfold bind at 1.
  destruct (Pursuer.pursueTarget _ _ h) as [[] h1]; cbn [snd].
  unfold bind at 1.
  destruct (Spaceship.update _ dt h1) as [[] h2]; cbn [snd].
  unfold bind at 1.
  destruct (Pursuer.update _ dt h2) as [[] h3]; cbn [snd].
  unfold bind. rewrite didCatchTarget_run. reflexivity.
Qed.

(** On a well-formed object graph, [update] acts on the snapshot as
    [Snapshot_step], keeps the two objects, writes to no cell outside
    the simulation's six vectors, and leaves the graph well-formed. *)
Lemma update_snapshot (sim : Simulation.t) (dt : R) (h : Heap) :
  Simulation_wf sim h ->
  let r := Simulation.update sim dt h in
  Simulation.target (fst r) = Simulation.target sim
  /\ Simulation.pursuer (fst r) = Simulation.pursuer sim
  /\ snapshot (fst r) (snd r) = Snapshot_step dt (snapshot sim h)
  /\ (forall r0, allocated h r0 -> ~ In r0 (Simulation_refs sim) ->
                 load (snd r) r0 = load h r0)
  /\ (next h <= next (snd r))%nat.
Proof.
  intros Hwf r; subst r.
  destruct (Simulation.finished sim) eqn:Hfin.
  - rewrite Simulation_update_finished by assumption. cbn [fst snd].
    repeat split; try lia.
    unfold Snapshot_step. cbn [snapshot halted]. now rewrite Hfin.
  - rewrite Simulation_update_running by assumption. cbn [fst snd].
    set (p := Simulation.pursuer sim) in *.
    set (t := Simulation.target sim) in *.
    assert (Hrefs : Simulation_refs sim =
              [Spaceship.position t; Spaceship.velocity t;
               Pursuer.position p; Pursuer.velocity p;
               Pursuer.acceleration p; Pursuer.direction p])
      by reflexivity.
    destruct Hwf as [Hnd Hal]. rewrite Hrefs in Hnd, Hal.
    repeat (apply NoDup_cons_iff in Hnd; destruct Hnd as [? Hnd]).
    repeat (apply Forall_cons_iff in Hal; destruct Hal as [? Hal]).
    cbn [In] in *.
    destruct (pursueTarget_effect p t h) as (A1 & F1 & N1); try assumption.
    set (h1 := exec (Pursuer.pursueTarget p t) h) in *. clearbody h1.
    destruct (Spaceship_update_effect t dt h1) as (A2 & F2 & N2);
      try solve_frame.
    set (h2 := exec (Spaceship.update t dt) h1) in *. clearbody h2.
    assert (Hwf2 : Pursuer_wf p h2).
    { unfold Pursuer_wf, Pursuer_refs. split.
      - repeat (apply NoDup_cons; [solve_frame |]). apply NoDup_nil.
      - repeat (apply Forall_cons; [solve_frame |]). apply Forall_nil. }
    destruct (Pursuer_update_effect p dt h2 Hwf2)
      as (V3 & P3 & C3 & D3 & F3 & N3).
    set (h3 := exec (Pursuer.update p dt) h2) in *. clearbody h3.
    assert (Htp : load h3 (Spaceship.position t) =
                  vadd (load h (Spaceship.position t))
                       (vscale (load h (Spaceship.velocity t)) dt)).
    { rewrite F3, A2, !F1; solve_frame. }
    assert (Htv : load h3 (Spaceship.velocity t) =
                  load h (Spaceship.velocity t)).
    { rewrite F3, F2, F1; solve_frame. }
    assert (Hpp1 : load h2 (Pursuer.position p) = load h (Pursuer.position p)).
    { rewrite F2, F1; solve_frame. }
    assert (Hpv1 : load h2 (Pursuer.velocity p) = load h (Pursuer.velocity p)).
    { rewrite F2, F1; solve_frame. }
    assert (Hpa1 : load h2 (Pursuer.acceleration p) =
                   vadd (load h (Pursuer.acceleration p))
                     (steeringForce (load h (Pursuer.position p))
                        (load h (Pursuer.velocity p))
                        (load h (Spaceship.position t))
                        (Pursuer.maxSpeed p) (Pursuer.maxSteerForce p))).
    { rewrite F2, A1; solve_frame. }
    split; [reflexivity |]. split; [reflexivity |]. split; [| split].
    + unfold snapshot, Snapshot_step.
      cbn [Simulation.target Simulation.pursuer Simulation.time
           Simulation.finished halted targetPosition targetVelocity
           pursuerPosition pursuerVelocity pursuerAcceleration
           pursuerDirection pursuerMaxSpeed pursuerMaxSteerForce
           pursuerVisionDistance pursuerVisionAngle elapsed].
      fold p t. rewrite Hfin.
      unfold eval. rewrite didCatchTarget_run. cbn [fst].
      rewrite Htp, Htv, V3, P3, C3, D3, Hpp1, Hpv1, Hpa1.
      reflexivity.
    + intros r0 Hr0 Hout. rewrite Hrefs in Hout. cbn [In] in Hout.
      rewrite F3, F2, F1; solve_frame.
    + eauto using Nat.le_trans.
Qed.

End SimulationFacts.

(** ** Construction and whole runs *)

Section RunFacts.

Lemma Simulation_refs_eq (sim sim' : Simulation.t) :
  Simulation.target sim' = Simulation.target sim ->
  Simulation.pursuer sim' = Simulation.pursuer sim ->
  Simulation_refs sim' = Simulation_refs sim.
Proof. unfold Simulation_refs. now intros -> ->. Qed.

Lemma Simulation_wf_mono (sim sim' : Simulation.t) (h h' : Heap) :
  Simulation_refs sim' = Simulation_refs sim ->
  (next h <= next h')%nat ->
  Simulation_wf sim h -> Simulation_wf sim' h'.
Proof.
  unfold Simulation_wf. intros -> Hle [Hnd Hal]. split; [assumption |].
  eapply Forall_impl; [| eassumption].
  intros r. now apply allocated_mono.
Qed.

(** The constructor builds a well-formed graph out of fresh cells, holding
    the values of the settings, and writes to no cell that existed. *)
Lemma new_snapshot (s : Settings.t) (h : Heap) :
  Settings_wf s h ->
  let sim := eval (Simulation.new s) h in
  let h' := exec (Simulation.new s) h in
  Simulation_wf sim h'
  /\ snapshot sim h' = Snapshot_init (Settings_values s h)
  /\ (forall r0, allocated h r0 -> load h' r0 = load h r0)
  /\ (forall r0, In r0 (Simulation_refs sim) -> (next h <= r0)%nat)
  /\ (next h <= next h')%nat.
Proof.
  intros Hs sim h'; subst sim h'. refs_unpack.
  unfold Simulation.new, Pursuer.new, Spaceship.new. heap_steps.
  unfold Simulation_wf, Simulation_refs, Spaceship_refs, Pursuer_refs,
    snapshot, Pursuer.position, Pursuer.velocity.
  cbn [Simulation.target Simulation.pursuer Spaceship.position
       Spaceship.velocity Pursuer.super Pursuer.acceleration
       Pursuer.direction Pursuer.maxSpeed Pursuer.maxSteerForce
       Pursuer.visionDistance Pursuer.visionAngle Simulation.time
       Simulation.finished app].
  split; [| split; [| split; [| split]]].
  - split.
    + repeat (apply NoDup_cons; [cbn [In]; lia |]). apply NoDup_nil.
    + repeat (apply Forall_cons; [solve_ref |]). apply Forall_nil.
  - heap_loads. reflexivity.
  - intros r0 Hr0. heap_loads. reflexivity.
  - cbn [In]. intros r0 Hin. lia.
  - lia.
Qed.

(** A run acts on the snapshot as the iterated [Snapshot_step]. *)
Lemma run_snapshot (dts : list R) (sim : Simulation.t) (h : Heap) :
  Simulation_wf sim h ->
  let r := Simulation.run sim dts h in
  Simulation_refs (fst r) = Simulation_refs sim
  /\ snapshot (fst r) (snd r) = Snapshot_run (snapshot sim h) dts
  /\ (forall r0, allocated h r0 -> ~ In r0 (Simulation_refs sim) ->
                 load (snd r) r0 = load h r0)
  /\ (next h <= next (snd r))%nat.
Proof.
  revert sim h. induction dts as [| dt rest IH]; intros sim h Hwf r; subst r.
  - cbn. repeat split; lia.
  - cbn [Simulation.run]. unfold bind.
    destruct (update_snapshot sim dt h Hwf) as (Ht & Hp & Hs & Hf & Hn).
    destruct (Simulation.update sim dt h) as [sim1 h1] eqn:Hup.
    cbn [fst snd] in *.
    pose proof (Simulation_refs_eq sim sim1 Ht Hp) as Hrefs.
    assert (Hwf1 : Simulation_wf sim1 h1)
      by (eapply Simulation_wf_mono; eassumption).
    destruct (IH sim1 h1 Hwf1) as (Hr' & Hs' & Hf' & Hn').
    split; [congruence |]. split; [| split].
    + rewrite Hs'. cbn [Snapshot_run fold_left]. unfold Snapshot_run.
      now rewrite Hs.
    + intros r0 Hr0 Hout. rewrite Hf'.
      * now apply Hf.
      * eapply allocated_mono; eassumption.
      * now rewrite Hrefs.
    + eauto using Nat.le_trans.
Qed.

End RunFacts.

(** ** The angle of the detection test *)

Section AngleFacts.

Lemma catchDistance_vlength (p tp : Vector3) :
  Pursuer.catchDistance p tp = vlength (vsub p tp).
Proof. reflexivity. Qed.

Lemma catchDenominator_lengths (d tp : Vector3) :
  Pursuer.catchDenominator d tp = vlength d * vlength tp.
Proof.
  unfold Pursuer.catchDenominator, vlength.
  apply sqrt_mult_alt, sumsq_nonneg.
Qed.

Lemma catchDot_zero_l (tp : Vector3) : Pursuer.catchDot zero tp = 0.
Proof. unfold Pursuer.catchDot, zero; cbn [x y z]. ring. Qed.

Lemma catchDot_zero_r (d : Vector3) : Pursuer.catchDot d zero = 0.
Proof. unfold Pursuer.catchDot, zero; cbn [x y z]. ring. Qed.

(** The denominator vanishes exactly when one of the two vectors is the
    zero vector, and then so does the dot product. *)
Lemma catchDenominator_zero (d tp : Vector3) :
  Pursuer.catchDenominator d tp = 0 <-> d = zero \/ tp = zero.
Proof.
  rewrite catchDenominator_lengths. split.
  - intros H. apply Rmult_integral in H.
    destruct H as [H | H]; [left | right]; now apply vlength_eq_0.
  - intros [-> | ->]; rewrite vlength_zero; ring.
Qed.

Lemma catchDot_vanishes (d tp : Vector3) :
  d = zero \/ tp = zero -> Pursuer.catchDot d tp = 0.
Proof.
  intros [-> | ->]; [apply catchDot_zero_l | apply catchDot_zero_r].
Qed.

Lemma catchAngle_degenerate (d tp : Vector3) :
  Pursuer.catchDenominator d tp = 0 -> Pursuer.catchAngle d tp = PI / 2.
Proof.
  intros Hden. unfold Pursuer.catchAngle.
  destruct (Req_dec_T (Pursuer.catchDenominator d tp) 0) as [_ | Hne];
    [| contradiction].
  apply catchDenominator_zero, catchDot_vanishes in Hden. rewrite Hden.
  replace (0 / (PI / 2)) with 0 by (unfold Rdiv; ring).
  destruct (Rlt_dec 0 (-1)) as [Hlt | _]; [lra |].
  destruct (Rgt_dec 0 1) as [Hgt | _]; [lra |].
  apply acos_0.
Qed.

(** The two branches of the code clamp as [clamp] does. *)
Lemma clamp_branches (theta : R) :
  (if Rlt_dec theta (-1) then -1
   else if Rgt_dec theta 1 then 1 else theta) = clamp theta (-1) 1.
Proof.
  unfold clamp, Rmax, Rmin.
  destruct (Rlt_dec theta (-1)), (Rgt_dec theta 1), (Rle_dec 1 theta);
    try lra;
    match goal with |- context [Rle_dec ?a ?b] => destruct (Rle_dec a b) end;
    lra.
Qed.

(** The computed angle is the angle of the specification.  Where a length
    is zero the dot product is zero too and both quotients are [0]: the
    code's by the substituted denominator, the formula's since a zero
    numerator makes the quotient of real numbers zero. *)
Lemma catchAngle_specAngle (d tp : Vector3) :
  Pursuer.catchAngle d tp = specAngle d tp.
Proof.
  destruct (Req_dec_T (Pursuer.catchDenominator d tp) 0) as [Hden | Hden].
  - rewrite catchAngle_degenerate by assumption.
    unfold specAngle. change (vdot d tp) with (Pursuer.catchDot d tp).
    rewrite (catchDot_vanishes d tp) by now apply catchDenominator_zero.
    replace (0 / (vlength d * vlength tp)) with 0 by (unfold Rdiv; ring).
    unfold clamp, Rmax, Rmin.
    destruct (Rle_dec 1 0); [lra |]. destruct (Rle_dec (-1) 0); [| lra].
    symmetry. apply acos_0.
  - unfold Pursuer.catchAngle, specAngle.
    destruct (Req_dec_T (Pursuer.catchDenominator d tp) 0) as [H0 | _];
      [contradiction |].
    rewrite clamp_branches, catchDenominator_lengths. reflexivity.
Qed.

Lemma didCatchTarget_true (this : Pursuer.t) (target : Spaceship.t)
    (h : Heap) :
  eval (Pursuer.didCatchTarget this target) h = true <->
  Pursuer.catchDistance (load h (Pursuer.position this))
      (load h (Spaceship.position target)) <= Pursuer.visionDistance this
  /\ Pursuer.catchAngle (load h (Pursuer.direction this))
       (load h (Spaceship.position target)) <= Pursuer.visionAngle this / 2.
Proof.
  unfold eval. rewrite didCatchTarget_run. cbn [fst]. unfold caught.
  destruct (Rle_dec _ _) as [Hd | Hd]; [destruct (Rle_dec _ _) as [Ha | Ha] |];
    split; intros H; try discriminate; try tauto.
Qed.

End AngleFacts.

(** ** Sessions *)

Section SessionFacts.


End SessionFacts.

(** ** Checks on concrete inputs *)

Section Checks.

(** In the program's arithmetic the rescaling rounds: [clampLength] moves a
    vector of length 18.5 that is within the bound 20, and [normalize]
    returns a vector whose computed length is below 1. *)
Example Double_clampLength_rounds :
  PrimFloat.eqb
    (Double.x (Double.clampLength Double.shortVector
                 (Double.x Double.origin) Double.fastLimit))
    (Double.x Double.shortVector) = false.
Proof. vm_compute. reflexivity. Qed.

Example Double_normalize_rounds :
  PrimFloat.ltb (Double.length (Double.normalize Double.someVector))
                Double.one = true.
Proof. vm_compute. reflexivity. Qed.

(** The pursuer at the origin heading along x, the target 3 ahead on the
    x axis, [visionDistance = 5], [visionAngle = 90] degrees: caught. *)
Example caught_straight_ahead :
  caught zero (mkVector3 1 0 0) (mkVector3 3 0 0) 5 (90 * (PI / 180)) = true.
Proof.
  pose proof PI_RGT_0 as Hpi.
  assert (Hdist : Pursuer.catchDistance zero (mkVector3 3 0 0) = 3).
  { unfold Pursuer.catchDistance, zero; cbn [x y z].
    replace ((0 - 3) * (0 - 3) + (0 - 0) * (0 - 0) + (0 - 0) * (0 - 0))
      with (3 * 3) by ring.
    apply sqrt_square; lra. }
  assert (Hden : Pursuer.catchDenominator (mkVector3 1 0 0) (mkVector3 3 0 0)
                 = 3).
  { unfold Pursuer.catchDenominator; cbn [x y z].
    replace ((1 * 1 + 0 * 0 + 0 * 0) * (3 * 3 + 0 * 0 + 0 * 0))
      with (3 * 3) by ring.
    apply sqrt_square; lra. }
  assert (Hangle : Pursuer.catchAngle (mkVector3 1 0 0) (mkVector3 3 0 0) = 0).
  { unfold Pursuer.catchAngle. rewrite Hden.
    destruct (Req_dec_T 3 0) as [H | _]; [lra |].
    unfold Pursuer.catchDot; cbn [x y z].
    replace ((1 * 3 + 0 * 0 + 0 * 0) / 3) with 1 by field.
    destruct (Rlt_dec 1 (-1)); [lra |]. destruct (Rgt_dec 1 1); [lra |].
    apply acos_1. }
  unfold caught. rewrite Hdist, Hangle.
  destruct (Rle_dec 3 5); [| lra].
  destruct (Rle_dec 0 (90 * (PI / 180) / 2)); [reflexivity | lra].
Qed.

End Checks.

(** * Properties of the program *)

(** C1: [Simulation.update(dt)] returns at once, changing nothing, when
    [finished] is set.  Otherwise it advances the clock by [dt] and runs, in
    this order and each on the store left by the one before:
    [pursuer.pursueTarget(target)], which adds to the pursuer's acceleration
    the steering force computed from the positions and the velocity before
    the frame and leaves the other five vectors; [target.update(dt)], which
    advances the target's position by [dt] times its velocity and leaves the
    other five; [pursuer.update(dt)], which integrates and clamps the
    pursuer's velocity with the accumulated acceleration, advances its
    position by [dt] times the new velocity, clears the acceleration, sets
    the direction, and leaves the target; and [finished] becomes the result
    of [pursuer.didCatchTarget(target)] on the positions and the direction
    so reached. *)
Theorem C1_update_sequence (this : Simulation.t) (dt : R) (h : Heap) :
  let p := Simulation.pursuer this in
  let t := Simulation.target this in
  let h1 := exec (Pursuer.pursueTarget p t) h in
  let h2 := exec (Spaceship.update t dt) h1 in
  let h3 := exec (Pursuer.update p dt) h2 in
  (Simulation.finished this = true -> Simulation.update this dt h = (this, h))
  /\ (Simulation.finished this = false ->
      Simulation.update this dt h =
        (Simulation.mk t p (Simulation.time this + dt)
           (eval (Pursuer.didCatchTarget p t) h3), h3))
  /\ (Simulation_wf this h ->
      (load h1 (Pursuer.acceleration p) =
         vadd (load h (Pursuer.acceleration p))
              (steeringForce (load h (Pursuer.position p))
                 (load h (Pursuer.velocity p)) (load h (Spaceship.position t))
                 (Pursuer.maxSpeed p) (Pursuer.maxSteerForce p))
       /\ forall r, In r (Simulation_refs this) ->
                    r <> Pursuer.acceleration p -> load h1 r = load h r)
      /\ (load h2 (Spaceship.position t) =
            vadd (load h1 (Spaceship.position t))
                 (vscale (load h1 (Spaceship.velocity t)) dt)
          /\ forall r, In r (Simulation_refs this) ->
                       r <> Spaceship.position t -> load h2 r = load h1 r)
      /\ (load h3 (Pursuer.velocity p) =
            vclampLength (vadd (load h2 (Pursuer.velocity p))
                               (vscale (load h2 (Pursuer.acceleration p)) dt))
                         0 (Pursuer.maxSpeed p)
          /\ load h3 (Pursuer.position p) =
               vadd (load h2 (Pursuer.position p))
                    (vscale (load h3 (Pursuer.velocity p)) dt)
          /\ load h3 (Pursuer.acceleration p) = mkVector3 0 0 0
          /\ load h3 (Pursuer.direction p) =
               vnormalize (load h3 (Pursuer.velocity p))
          /\ forall r, In r (Spaceship_refs t) -> load h3 r = load h2 r)
      /\ eval (Pursuer.didCatchTarget p t) h3 =
           caught (load h3 (Pursuer.position p)) (load h3 (Pursuer.direction p))
                  (load h3 (Spaceship.position t))
                  (Pursuer.visionDistance p) (Pursuer.visionAngle p)).
Proof.
  intros p t h1 h2 h3.
  split; [apply Simulation_update_finished |].
  split; [intros Hrun; now apply Simulation_update_running |].
  intros Hwf.
  assert (Hrefs : Simulation_refs this =
            [Spaceship.position t; Spaceship.velocity t;
             Pursuer.position p; Pursuer.velocity p;
             Pursuer.acceleration p; Pursuer.direction p]) by reflexivity.
  destruct Hwf as [Hnd Hal]. rewrite Hrefs in Hnd, Hal.
  repeat (apply NoDup_cons_iff in Hnd; destruct Hnd as [? Hnd]).
  repeat (apply Forall_cons_iff in Hal; destruct Hal as [? Hal]).
  cbn [In] in *.
  destruct (pursueTarget_effect p t h) as (A1 & F1 & N1); try assumption.
  fold h1 in A1, F1, N1.
  destruct (Spaceship_update_effect t dt h1) as (A2 & F2 & N2);
    try solve_frame.
  fold h2 in A2, F2, N2.
  assert (Hwf2 : Pursuer_wf p h2).
  { unfold Pursuer_wf, Pursuer_refs. split.
    - repeat (apply NoDup_cons; [solve_frame |]). apply NoDup_nil.
    - repeat (apply Forall_cons; [solve_frame |]). apply Forall_nil. }
  destruct (Pursuer_update_effect p dt h2 Hwf2)
    as (V3 & P3 & C3 & D3 & F3 & N3).
  fold h3 in V3, P3, C3, D3, F3, N3.
  clearbody h1 h2 h3.
  split; [| split; [| split]].
  - split; [exact A1 |].
    intros r Hin Hne. rewrite Hrefs in Hin. cbn [In] in Hin.
    apply F1; [| exact Hne].
    repeat (destruct Hin as [<- | Hin]; [assumption |]). contradiction.
  - split; [exact A2 |].
    intros r Hin Hne. rewrite Hrefs in Hin. cbn [In] in Hin.
    apply F2; [| exact Hne].
    repeat (destruct Hin as [<- | Hin]; [solve_frame |]). contradiction.
  - split; [exact V3 |]. split; [now rewrite P3, V3 |].
    split; [exact C3 |]. split; [now rewrite D3, V3 |].
    intros r Hin. unfold Spaceship_refs in Hin. cbn [In] in Hin.
    apply F3.
    + repeat (destruct Hin as [<- | Hin]; [solve_frame |]). contradiction.
    + repeat (destruct Hin as [<- | Hin]; [solve_frame |]). contradiction.
  - unfold eval. now rewrite didCatchTarget_run.
Qed.

Lemma C1_demo_wf : Simulation_wf demoSim demoHeap.
Proof.
  split.
  - vm_compute. repeat (apply NoDup_cons; [cbn [In]; lia |]). apply NoDup_nil.
  - vm_compute. repeat (apply Forall_cons; [lia |]). apply Forall_nil.
Defined.

Lemma C1_witness :
  let p := Simulation.pursuer demoSim in
  let t := Simulation.target demoSim in
  let h1 := exec (Pursuer.pursueTarget p t) demoHeap in
  let h2 := exec (Spaceship.update t (1 / 60)) h1 in
  Simulation.update finishedSim (1 / 60) demoHeap = (finishedSim, demoHeap)
  /\ Simulation.time (fst (Simulation.update demoSim (1 / 60) demoHeap))
     = Simulation.time demoSim + 1 / 60
  /\ load h2 (Spaceship.position t) =
       vadd (load h1 (Spaceship.position t))
            (vscale (load h1 (Spaceship.velocity t)) (1 / 60)).
Proof.
  intros p t h1 h2.
  split; [| split].
  - exact (proj1 (C1_update_sequence finishedSim (1 / 60) demoHeap) eq_refl).
  - rewrite (proj1 (proj2 (C1_update_sequence demoSim (1 / 60) demoHeap))
               eq_refl).
    reflexivity.
  - exact (proj1 (proj1 (proj2 (proj2 (proj2
             (C1_update_sequence demoSim (1 / 60) demoHeap)) C1_demo_wf)))).
Defined.

(** C5: once [finished] is set, any sequence of further
    [Simulation.update(dt)] calls gives back the same simulation object in
    the same store: the clock, both positions and both velocities are
    untouched. *)
Theorem C5_finished_is_frozen (this : Simulation.t) (dts : list R) (h : Heap) :
  Simulation.finished this = true ->
  Simulation.run this dts h = (this, h).
Proof.
  intros Hfin. induction dts as [| dt rest IH].
  - reflexivity.
  - cbn [Simulation.run]. unfold bind.
    rewrite Simulation_update_finished by assumption. exact IH.
Qed.

Lemma C5_witness :
  Simulation.finished finishedSim = true /\
  Simulation.run finishedSim [1; -2; 1 / 60] demoHeap = (finishedSim, demoHeap).
Proof.
  split; [reflexivity |].
  apply (C5_finished_is_frozen finishedSim [1; -2; 1 / 60] demoHeap).
  reflexivity.
Defined.

(** C6: for every body whose two vectors are objects of the store and
    every real [dt], of either sign, [Spaceship.update(dt)] is defined and
    sets the position to the position before plus [dt] times the velocity.
    It writes to no other object that existed: the velocity, when it is an
    object of its own and not the position object itself, is unchanged. *)
Theorem C6_Spaceship_update (s : Spaceship.t) (dt : R) (h : Heap) :
  allocated h (Spaceship.position s) ->
  allocated h (Spaceship.velocity s) ->
  let h' := exec (Spaceship.update s dt) h in
  load h' (Spaceship.position s) =
    vadd (load h (Spaceship.position s))
         (vscale (load h (Spaceship.velocity s)) dt)
  /\ (Spaceship.velocity s <> Spaceship.position s ->
      load h' (Spaceship.velocity s) = load h (Spaceship.velocity s))
  /\ (forall r, allocated h r -> r <> Spaceship.position s ->
                load h' r = load h r).
Proof.
  intros Hp Hv h'.
  destruct (Spaceship_update_effect s dt h Hp Hv) as (Hpos & Hframe & _).
  fold h' in Hpos, Hframe.
  split; [exact Hpos |]. split; [| exact Hframe].
  intros Hne. now apply Hframe.
Qed.

Lemma C6_witness :
  let s := Simulation.target demoSim in
  let h' := exec (Spaceship.update s (-1)) demoHeap in
  load h' (Spaceship.position s) =
    vadd (load demoHeap (Spaceship.position s))
         (vscale (load demoHeap (Spaceship.velocity s)) (-1))
  /\ load h' (Spaceship.velocity s) = load demoHeap (Spaceship.velocity s).
Proof.
  intros s h'.
  destruct (C6_Spaceship_update s (-1) demoHeap) as (Hpos & Hvel & _).
  - unfold allocated; vm_compute; lia.
  - unfold allocated; vm_compute; lia.
  - split; [exact Hpos |]. apply Hvel. vm_compute. lia.
Defined.



Lemma demoPursuer_wf : Pursuer_wf (Simulation.pursuer demoSim) demoHeap.
Proof.
  split.
  - vm_compute. repeat (apply NoDup_cons; [cbn [In]; lia |]). apply NoDup_nil.
  - vm_compute. repeat (apply Forall_cons; [lia |]). apply Forall_nil.
Defined.






(** C9: when the target's position equals the pursuer's, [pursueTarget]
    is still defined: the zero offset normalizes to the zero vector, the
    desired velocity is the zero vector, and the force added to the
    acceleration is the opposite of the velocity, clamped in length to
    [maxSteerForce]. *)
Theorem C9_coincident_positions (p : Pursuer.t) (t : Spaceship.t) (h : Heap) :
  allocated h (Pursuer.position p) ->
  allocated h (Pursuer.velocity p) ->
  allocated h (Pursuer.acceleration p) ->
  allocated h (Spaceship.position t) ->
  load h (Spaceship.position t) = load h (Pursuer.position p) ->
  let offset :=
    vsub (load h (Spaceship.position t)) (load h (Pursuer.position p)) in
  let h' := exec (Pursuer.pursueTarget p t) h in
  vnormalize offset = zero
  /\ vscale (vnormalize offset) (Pursuer.maxSpeed p) = zero
  /\ load h' (Pursuer.acceleration p) =
       vadd (load h (Pursuer.acceleration p))
            (vclampLength (vopp (load h (Pursuer.velocity p)))
                          0 (Pursuer.maxSteerForce p)).
Proof.
  intros Hp Hv Ha Ht Heq offset h'.
  destruct (pursueTarget_effect p t h Hp Hv Ha Ht) as (Hacc & _).
  fold h' in Hacc.
  assert (Hoff : offset = zero).
  { unfold offset. rewrite Heq. apply vsub_self. }
  split; [| split].
  - rewrite Hoff. apply vnormalize_zero.
  - rewrite Hoff, vnormalize_zero. apply vscale_zero.
  - rewrite Hacc. unfold steeringForce. fold offset.
    rewrite Hoff, vnormalize_zero, vscale_zero.
    replace (vsub zero (load h (Pursuer.velocity p)))
      with (vopp (load h (Pursuer.velocity p)));
      [reflexivity |].
    unfold vsub, vopp, zero; cbn [x y z]. f_equal; ring.
Qed.

Lemma C9_witness :
  let p := Simulation.pursuer originSim in
  let t := Simulation.target originSim in
  load (exec (Pursuer.pursueTarget p t) originHeap) (Pursuer.acceleration p) =
    vadd (load originHeap (Pursuer.acceleration p))
         (vclampLength (vopp (load originHeap (Pursuer.velocity p)))
                       0 (Pursuer.maxSteerForce p)).
Proof.
  intros p t.
  apply (C9_coincident_positions p t originHeap).
  - unfold allocated; vm_compute; lia.
  - unfold allocated; vm_compute; lia.
  - unfold allocated; vm_compute; lia.
  - unfold allocated; vm_compute; lia.
  - vm_compute. reflexivity.
Defined.

(** C2: [didCatchTarget(target)] is false whenever the straight-line
    distance between the two positions exceeds [visionDistance]; within that
    range it is true exactly when the angle
    [acos(clamp(dot(direction, target.position) /
    (|direction| * |target.position|), -1, 1))], taken against the target's
    position vector from the world origin and not against the offset from
    the pursuer, is at most [visionAngle / 2].  (Where one of the two
    lengths is zero the dot product is zero as well, and the quotient of the
    formula is the real number [0], as is the code's quotient after its
    substitution of the denominator.) *)
Theorem C2_detection_cone (this : Pursuer.t) (target : Spaceship.t) (h : Heap) :
  let p := load h (Pursuer.position this) in
  let tp := load h (Spaceship.position target) in
  let d := load h (Pursuer.direction this) in
  let result := eval (Pursuer.didCatchTarget this target) h in
  (vlength (vsub p tp) > Pursuer.visionDistance this -> result = false)
  /\ (vlength (vsub p tp) <= Pursuer.visionDistance this ->
      (result = true <-> specAngle d tp <= Pursuer.visionAngle this / 2)).
Proof.
  intros p tp d result.
  pose proof (didCatchTarget_true this target h) as Htrue.
  fold p tp d result in Htrue.
  rewrite catchDistance_vlength, catchAngle_specAngle in Htrue.
  split.
  - intros Hfar. destruct result; [| reflexivity].
    destruct (proj1 Htrue eq_refl) as [Hnear _]. lra.
  - intros Hnear. rewrite Htrue. tauto.
Qed.

Lemma demo_far_apart :
  vlength (vsub (load demoHeap (Pursuer.position (Simulation.pursuer demoSim)))
                (load demoHeap (Spaceship.position (Simulation.target demoSim))))
    > Pursuer.visionDistance (Simulation.pursuer demoSim).
Proof.
  vm_compute load. unfold vlength, vsub; cbn [x y z Pursuer.visionDistance
    Simulation.pursuer demoSim].
  replace (Pursuer.visionDistance (Simulation.pursuer demoSim)) with 5
    by reflexivity.
  apply Rlt_gt.
  replace 5 with (sqrt (5 * 5)) at 1 by (apply sqrt_square; lra).
  apply sqrt_lt_1_alt. lra.
Defined.

Lemma origin_together :
  vlength (vsub (load originHeap (Pursuer.position (Simulation.pursuer originSim)))
                (load originHeap
                   (Spaceship.position (Simulation.target originSim))))
    <= Pursuer.visionDistance (Simulation.pursuer originSim).
Proof.
  replace (load originHeap (Pursuer.position (Simulation.pursuer originSim)))
    with zero by (vm_compute; reflexivity).
  replace (load originHeap (Spaceship.position (Simulation.target originSim)))
    with zero by (vm_compute; reflexivity).
  rewrite vsub_self, vlength_zero.
  replace (Pursuer.visionDistance (Simulation.pursuer originSim)) with 5
    by reflexivity.
  lra.
Defined.

Lemma C2_witness :
  eval (Pursuer.didCatchTarget (Simulation.pursuer demoSim)
          (Simulation.target demoSim)) demoHeap = false
  /\ (eval (Pursuer.didCatchTarget (Simulation.pursuer originSim)
              (Simulation.target originSim)) originHeap = true <->
      specAngle (load originHeap (Pursuer.direction (Simulation.pursuer originSim)))
                (load originHeap
                   (Spaceship.position (Simulation.target originSim)))
        <= Pursuer.visionAngle (Simulation.pursuer originSim) / 2).
Proof.
  split.
  - apply (proj1 (C2_detection_cone (Simulation.pursuer demoSim)
                    (Simulation.target demoSim) demoHeap)).
    exact demo_far_apart.
  - apply (proj2 (C2_detection_cone (Simulation.pursuer originSim)
                    (Simulation.target originSim) originHeap)).
    exact origin_together.
Defined.

(** C7, as stated, fails: with the direction and the target's position
    both the zero vector (the pursuer of a new simulation, its target at
    the origin) the denominator is zero and the computed angle is not below
    [PI / 2]. *)
Lemma C7_counterexample :
  let d := load originHeap (Pursuer.direction (Simulation.pursuer originSim)) in
  let tp := load originHeap (Spaceship.position (Simulation.target originSim)) in
  Pursuer.catchDenominator d tp = 0 /\ ~ Pursuer.catchAngle d tp < PI / 2.
Proof.
  intros d tp.
  assert (Hd : d = zero) by (vm_compute; reflexivity).
  assert (Hden : Pursuer.catchDenominator d tp = 0).
  { apply catchDenominator_zero. now left. }
  split; [exact Hden |].
  rewrite (catchAngle_degenerate d tp Hden). lra.
Qed.

(** C7, amended: when the denominator [|direction| * |target.position|]
    is zero, the dot product is zero too, the quotient by the substituted
    [PI / 2] is [0], and the computed angle is exactly [PI / 2], a right
    angle. *)
Theorem C7_zero_denominator_right_angle (d tp : Vector3) :
  Pursuer.catchDenominator d tp = 0 ->
  Pursuer.catchDot d tp = 0 /\ Pursuer.catchAngle d tp = PI / 2.
Proof.
  intros Hden. split.
  - now apply catchDot_vanishes, catchDenominator_zero.
  - now apply catchAngle_degenerate.
Qed.

Lemma C7_witness :
  Pursuer.catchDenominator zero (mkVector3 3 0 0) = 0 /\
  Pursuer.catchAngle zero (mkVector3 3 0 0) = PI / 2.
Proof.
  assert (Hden : Pursuer.catchDenominator zero (mkVector3 3 0 0) = 0).
  { unfold Pursuer.catchDenominator, zero; cbn [x y z].
    replace ((0 * 0 + 0 * 0 + 0 * 0) * (3 * 3 + 0 * 0 + 0 * 0)) with 0 by ring.
    apply sqrt_0. }
  split; [exact Hden |].
  apply (C7_zero_denominator_right_angle zero (mkVector3 3 0 0) Hden).
Defined.

(** C10: if the target sits at the world origin, or the pursuer's
    direction is the zero vector, the dot product is zero and the computed
    angle is [PI / 2]; so within [visionDistance] the test is true exactly
    when [visionAngle / 2 >= PI / 2].  A pursuer built by the constructor
    from an angle in degrees within (0, 90] holds at most [PI / 2] radians,
    and for it the test is false in every store, whatever the heading and
    the distance. *)
Theorem C10_origin_target_undetected (this : Pursuer.t) (target : Spaceship.t)
    (h : Heap) :
  load h (Spaceship.position target) = zero
  \/ load h (Pursuer.direction this) = zero ->
  let p := load h (Pursuer.position this) in
  let tp := load h (Spaceship.position target) in
  let d := load h (Pursuer.direction this) in
  let result := eval (Pursuer.didCatchTarget this target) h in
  Pursuer.catchDot d tp = 0
  /\ Pursuer.catchAngle d tp = PI / 2
  /\ (vlength (vsub p tp) <= Pursuer.visionDistance this ->
      (result = true <-> Pursuer.visionAngle this / 2 >= PI / 2))
  /\ (forall (position velocity : ref)
             (maxSpeed maxSteerForce visionDistance degrees : R) (h0 : Heap),
        0 < degrees <= 90 ->
        this = eval (Pursuer.new position velocity maxSpeed maxSteerForce
                       visionDistance degrees) h0 ->
        Pursuer.visionAngle this <= PI / 2 /\ result = false).
Proof.
  intros Hdeg p tp d result.
  assert (Hzero : d = zero \/ tp = zero) by (subst d tp; tauto).
  assert (Hden : Pursuer.catchDenominator d tp = 0)
    by now apply catchDenominator_zero.
  pose proof (catchAngle_degenerate d tp Hden) as Hangle.
  pose proof (didCatchTarget_true this target h) as Htrue.
  fold p tp d result in Htrue.
  rewrite catchDistance_vlength, Hangle in Htrue.
  split; [now apply catchDot_vanishes |]. split; [exact Hangle |].
  split.
  - intros Hnear. rewrite Htrue. split; [intros [_ H] | intros H]; [| split];
      lra || assumption.
  - intros position velocity maxSpeed maxSteerForce visionDistance degrees h0
      Hrange Hnew.
    assert (Hrad : Pursuer.visionAngle this = degrees * (PI / 180))
      by (rewrite Hnew; reflexivity).
    pose proof PI_RGT_0 as Hpi.
    assert (Hle : Pursuer.visionAngle this <= PI / 2) by (rewrite Hrad; nra).
    split; [exact Hle |].
    destruct result; [| reflexivity].
    destruct (proj1 Htrue eq_refl) as [_ Hbad]. lra.
Qed.

Lemma C10_witness :
  eval (Pursuer.didCatchTarget (Simulation.pursuer originSim)
          (Simulation.target originSim)) originHeap = false.
Proof.
  assert (Horigin : load originHeap
                      (Spaceship.position (Simulation.target originSim)) = zero)
    by (vm_compute; reflexivity).
  destruct (C10_origin_target_undetected (Simulation.pursuer originSim)
              (Simulation.target originSim) originHeap (or_introl Horigin))
    as (_ & _ & _ & Hnever).
  destruct (Hnever 5%nat 6%nat 20 5 5 45 (mkHeap (fun _ => zero) 7%nat))
    as [_ Hfalse].
  - lra.
  - reflexivity.
  - exact Hfalse.
Defined.





(** * Further properties *)

(** ** More on lengths *)

Section LengthFacts.

Lemma vlength_pos (v : Vector3) : v <> zero -> 0 < vlength v.
Proof.
  intros Hv. destruct (vlength_nonneg v) as [Hlt | Heq]; [assumption |].
  elim Hv. now apply vlength_eq_0.
Qed.

Lemma vlength_sqr (v : Vector3) :
  vlength v * vlength v = x v * x v + y v * y v + z v * z v.
Proof. unfold vlength. apply sqrt_sqrt, sumsq_nonneg. Qed.

Lemma vclampLength_zero (lo hi : R) : vclampLength zero lo hi = zero.
Proof. unfold vclampLength. now rewrite !vscale_zero. Qed.

End LengthFacts.

(** ** Frames on snapshots *)

Section SnapshotFacts.

Lemma Snapshot_step_halted (dt : R) (s : Snapshot) :
  halted s = true -> Snapshot_step dt s = s.
Proof. intros H. unfold Snapshot_step. now rewrite H. Qed.

Lemma Snapshot_run_cons (s : Snapshot) (dt : R) (dts : list R) :
  Snapshot_run s (dt :: dts) = Snapshot_run (Snapshot_step dt s) dts.
Proof. reflexivity. Qed.

Lemma Snapshot_run_halted (s : Snapshot) (dts : list R) :
  halted s = true -> Snapshot_run s dts = s.
Proof.
  intros H. induction dts as [| dt rest IH]; [reflexivity |].
  now rewrite Snapshot_run_cons, Snapshot_step_halted.
Qed.

(** The four parameters and the target's velocity never change. *)
Lemma Snapshot_step_constants (dt : R) (s : Snapshot) :
  let s' := Snapshot_step dt s in
  pursuerMaxSpeed s' = pursuerMaxSpeed s
  /\ pursuerMaxSteerForce s' = pursuerMaxSteerForce s
  /\ pursuerVisionDistance s' = pursuerVisionDistance s
  /\ pursuerVisionAngle s' = pursuerVisionAngle s
  /\ targetVelocity s' = targetVelocity s.
Proof.
  unfold Snapshot_step. destruct (halted s); cbn; repeat split; reflexivity.
Qed.

Lemma Snapshot_run_invariant (P : Snapshot -> Prop) :
  (forall dt s, P s -> P (Snapshot_step dt s)) ->
  forall dts s, P s -> P (Snapshot_run s dts).
Proof.
  intros Hstep dts. induction dts as [| dt rest IH]; intros s Hs.
  - exact Hs.
  - rewrite Snapshot_run_cons. apply IH, Hstep, Hs.
Qed.


Lemma Snapshot_run_clock_bounds (dts : list R) (s : Snapshot) :
  Forall (fun dt => 0 <= dt) dts ->
  elapsed s <= elapsed (Snapshot_run s dts) <= elapsed s + sumR dts.
Proof.
  revert s. induction dts as [| dt rest IH]; intros s Hpos.
  - cbn. lra.
  - apply Forall_cons_iff in Hpos. destruct Hpos as [Hdt Hrest].
    rewrite Snapshot_run_cons. cbn [sumR fold_right]. fold (sumR rest).
    specialize (IH (Snapshot_step dt s) Hrest).
    assert (Hstep : elapsed s <= elapsed (Snapshot_step dt s) <= elapsed s + dt).
    { unfold Snapshot_step. destruct (halted s); cbn [elapsed]; lra. }
    lra.
Qed.

(** The target keeps its velocity, and while the simulation runs its
    position gathers [dt] times that velocity, frame after frame. *)
Lemma Snapshot_run_target (dts : list R) (s : Snapshot) :
  targetVelocity (Snapshot_run s dts) = targetVelocity s
  /\ (halted (Snapshot_run s dts) = false ->
      targetPosition (Snapshot_run s dts) =
        fold_left (fun position dt =>
                     vadd position (vscale (targetVelocity s) dt))
                  dts (targetPosition s)).
Proof.
  revert s. induction dts as [| dt rest IH]; intros s.
  - cbn. split; reflexivity.
  - rewrite Snapshot_run_cons.
    destruct (IH (Snapshot_step dt s)) as [Hv Hp].
    destruct (Snapshot_step_constants dt s) as (_ & _ & _ & _ & Hc).
    split; [congruence |].
    intros Hend. destruct (halted s) eqn:Hh.
    + rewrite Snapshot_step_halted, Snapshot_run_halted in Hend by assumption.
      congruence.
    + rewrite (Hp Hend), Hc. cbn [fold_left].
      unfold Snapshot_step. rewrite Hh. reflexivity.
Qed.

End SnapshotFacts.

(** More frames on snapshots: what holds once a frame has run. *)

Section SettledFacts.

Lemma Snapshot_step_settles (dt : R) (s : Snapshot) :
  halted s = false -> settled (Snapshot_step dt s).
Proof.
  intros Hrun. unfold settled, Snapshot_step. rewrite Hrun. now split.
Qed.

Lemma Snapshot_run_settled (dts : list R) (s : Snapshot) :
  settled s -> settled (Snapshot_run s dts).
Proof.
  apply (Snapshot_run_invariant settled). clear. intros dt s Hs.
  destruct (halted s) eqn:Hh.
  - now rewrite Snapshot_step_halted.
  - now apply Snapshot_step_settles.
Qed.

Lemma Snapshot_step_flags (dt : R) (s : Snapshot) :
  halted s = false -> flagged (Snapshot_step dt s).
Proof. intros Hrun. unfold flagged, Snapshot_step. now rewrite Hrun. Qed.

Lemma Snapshot_run_flagged (dts : list R) (s : Snapshot) :
  flagged s -> flagged (Snapshot_run s dts).
Proof.
  apply (Snapshot_run_invariant flagged). clear. intros dt s Hs.
  destruct (halted s) eqn:Hh.
  - now rewrite Snapshot_step_halted.
  - now apply Snapshot_step_flags.
Qed.

Lemma caught_origin (p d : Vector3) (visionDistance visionAngle : R) :
  visionAngle <= PI / 2 -> caught p d zero visionDistance visionAngle = false.
Proof.
  intros Hva. unfold caught.
  destruct (Rle_dec _ _) as [_ | _]; [| reflexivity].
  rewrite catchAngle_degenerate by (apply catchDenominator_zero; now right).
  pose proof PI_RGT_0 as Hpi.
  destruct (Rle_dec _ _) as [Hbad | _]; [lra | reflexivity].
Qed.

Lemma Snapshot_step_resting (dt : R) (s : Snapshot) :
  resting s -> resting (Snapshot_step dt s).
Proof.
  intros (Hp & Hv & Ha & Hrun). unfold resting, Snapshot_step. rewrite Hrun.
  cbn [targetPosition targetVelocity pursuerVisionAngle halted].
  assert (Hstay : vadd (targetPosition s) (vscale (targetVelocity s) dt) = zero).
  { rewrite Hp, Hv. unfold vadd, vscale, zero; cbn [x y z]. f_equal; ring. }
  rewrite Hstay. repeat split; try assumption.
  now apply caught_origin.
Qed.

Lemma vadd_vscale_0 (p v : Vector3) : vadd p (vscale v 0) = p.
Proof.
  destruct p as [a b c]. unfold vadd, vscale; cbn [x y z]. f_equal; ring.
Qed.

End SettledFacts.

(** ** Runs in the store *)

Section RunProperties.

Lemma update_objects (sim : Simulation.t) (dt : R) (h : Heap) :
  Simulation.target (fst (Simulation.update sim dt h)) = Simulation.target sim
  /\ Simulation.pursuer (fst (Simulation.update sim dt h)) =
       Simulation.pursuer sim.
Proof.
  destruct (Simulation.finished sim) eqn:Hfin.
  - rewrite Simulation_update_finished by assumption. now split.
  - rewrite Simulation_update_running by assumption. now split.
Qed.

Lemma run_objects (dts : list R) (sim : Simulation.t) (h : Heap) :
  Simulation.target (fst (Simulation.run sim dts h)) = Simulation.target sim
  /\ Simulation.pursuer (fst (Simulation.run sim dts h)) =
       Simulation.pursuer sim.
Proof.
  revert sim h. induction dts as [| dt rest IH]; intros sim h.
  - now split.
  - cbn [Simulation.run]. unfold bind.
    destruct (update_objects sim dt h) as [Ht Hp].
    destruct (Simulation.update sim dt h) as [sim1 h1]. cbn [fst] in Ht, Hp.
    destruct (IH sim1 h1) as [Ht' Hp']. split; congruence.
Qed.

Lemma run_shows (dts : list R) (sim : Simulation.t) (h : Heap) :
  Simulation_wf sim h ->
  snapshot (fst (Simulation.run sim dts h)) (snd (Simulation.run sim dts h)) =
    Snapshot_run (snapshot sim h) dts.
Proof. intros Hwf. now destruct (run_snapshot dts sim h Hwf) as (_ & H & _). Qed.

Lemma update_shows (dt : R) (sim : Simulation.t) (h : Heap) :
  Simulation_wf sim h ->
  snapshot (fst (Simulation.update sim dt h))
           (snd (Simulation.update sim dt h)) =
    Snapshot_step dt (snapshot sim h).
Proof.
  intros Hwf. now destruct (update_snapshot sim dt h Hwf) as (_ & _ & H & _).
Qed.

Lemma run_finished (sim : Simulation.t) (dts : list R) (h : Heap) :
  Simulation.finished sim = true -> Simulation.run sim dts h = (sim, h).
Proof.
  intros Hfin. induction dts as [| dt rest IH]; [reflexivity |].
  cbn [Simulation.run]. unfold bind.
  now rewrite Simulation_update_finished.
Qed.

Lemma demo_wf : Simulation_wf demoSim demoHeap.
Proof.
  split.
  - vm_compute. repeat (apply NoDup_cons; [cbn [In]; lia |]). apply NoDup_nil.
  - vm_compute. repeat (apply Forall_cons; [lia |]). apply Forall_nil.
Defined.

End RunProperties.

(** X8: over any run the target keeps its velocity; and while the
    simulation has not finished, the target's position is its position at
    the start with [dt] times that velocity added for every frame, in the
    order of the frames, whatever the pursuer does. *)
Theorem X8_target_moves_on_a_line (sim : Simulation.t) (dts : list R)
    (h : Heap) :
  Simulation_wf sim h ->
  let r := Simulation.run sim dts h in
  let before := snapshot sim h in
  let after := snapshot (fst r) (snd r) in
  targetVelocity after = targetVelocity before
  /\ (Simulation.finished (fst r) = false ->
      targetPosition after =
        fold_left (fun position dt =>
                     vadd position (vscale (targetVelocity before) dt))
                  dts (targetPosition before)).
Proof.
  intros Hwf r before after. subst r before after.
  rewrite run_shows by assumption.
  split; [apply Snapshot_run_target |].
  intros Hrun. apply Snapshot_run_target.
  change (Simulation.finished (fst (Simulation.run sim dts h)))
    with (halted (snapshot (fst (Simulation.run sim dts h))
                           (snd (Simulation.run sim dts h)))) in Hrun.
  now rewrite run_shows in Hrun.
Qed.


Lemma still_wf : Simulation_wf stillSim stillHeap.
Proof.
  split.
  - vm_compute. repeat (apply NoDup_cons; [cbn [In]; lia |]). apply NoDup_nil.
  - vm_compute. repeat (apply Forall_cons; [lia |]). apply Forall_nil.
Defined.

Lemma still_resting : resting (snapshot stillSim stillHeap).
Proof.
  unfold resting. split; [| split; [| split]].
  - vm_compute. reflexivity.
  - vm_compute. reflexivity.
  - change (45 * (PI / 180) <= PI / 2). pose proof PI_RGT_0. lra.
  - reflexivity.
Defined.

Lemma still_run_unfinished (dts : list R) :
  Simulation.finished (fst (Simulation.run stillSim dts stillHeap)) = false.
Proof.
  pose proof (run_shows dts stillSim stillHeap still_wf) as Hshow.
  pose proof (Snapshot_run_invariant resting Snapshot_step_resting dts
                (snapshot stillSim stillHeap) still_resting) as Hrest.
  rewrite <- Hshow in Hrest. now destruct Hrest as (_ & _ & _ & Hrun).
Defined.

Lemma X8_witness :
  let r := Simulation.run stillSim [1 / 60; 1 / 30] stillHeap in
  let before := snapshot stillSim stillHeap in
  let after := snapshot (fst r) (snd r) in
  targetVelocity after = targetVelocity before
  /\ targetPosition after =
       fold_left (fun position dt =>
                    vadd position (vscale (targetVelocity before) dt))
                 [1 / 60; 1 / 30] (targetPosition before).
Proof.
  intros r before after.
  destruct (X8_target_moves_on_a_line stillSim [1 / 60; 1 / 30] stillHeap
              still_wf) as [Hvel Hpos].
  split; [exact Hvel |].
  apply Hpos. exact (still_run_unfinished [1 / 60; 1 / 30]).
Defined.


(** X11: a frame with [dt = 0] leaves the clock and both positions where
    they were, finished or not. *)
Theorem X11_zero_dt_frame (sim : Simulation.t) (h : Heap) :
  Simulation_wf sim h ->
  let r := Simulation.update sim 0 h in
  let before := snapshot sim h in
  let after := snapshot (fst r) (snd r) in
  elapsed after = elapsed before
  /\ targetPosition after = targetPosition before
  /\ pursuerPosition after = pursuerPosition before.
Proof.
  intros Hwf r before after. subst r before after.
  rewrite update_shows by assumption. unfold Snapshot_step.
  destruct (halted (snapshot sim h)); [now repeat split |].
  cbn [elapsed targetPosition pursuerPosition].
  rewrite !vadd_vscale_0. repeat split. lra.
Qed.

Lemma X11_witness :
  let r := Simulation.update demoSim 0 demoHeap in
  pursuerPosition (snapshot (fst r) (snd r)) =
    pursuerPosition (snapshot demoSim demoHeap).
Proof.
  intros r.
  exact (proj2 (proj2 (X11_zero_dt_frame demoSim demoHeap demo_wf))).
Defined.

(** X12: once a frame has run (the simulation was not finished and at least
    one [update] followed), and after every later frame, the acceleration
    accumulator is the zero vector and the direction is the normalized
    velocity, whatever they were at the start. *)
Theorem X12_settled_after_a_frame (sim : Simulation.t) (dt : R)
    (dts : list R) (h : Heap) :
  Simulation_wf sim h ->
  Simulation.finished sim = false ->
  let r := Simulation.run sim (dt :: dts) h in
  let after := snapshot (fst r) (snd r) in
  pursuerAcceleration after = zero
  /\ pursuerDirection after = vnormalize (pursuerVelocity after).
Proof.
  intros Hwf Hrun r after. subst r after.
  rewrite run_shows by assumption. rewrite Snapshot_run_cons.
  apply Snapshot_run_settled.
  now apply Snapshot_step_settles.
Qed.

Lemma X12_witness :
  let r := Simulation.run demoSim [1 / 60; 1 / 60] demoHeap in
  pursuerAcceleration (snapshot (fst r) (snd r)) = zero.
Proof.
  intros r.
  exact (proj1 (X12_settled_after_a_frame demoSim (1 / 60) [1 / 60] demoHeap
                  demo_wf eq_refl)).
Defined.

(** X13: once a frame has run, and after every later frame, [finished]
    is what [didCatchTarget] answers in the store reached: it is set only
    by a catch, and the positions are frozen as they were at the catch. *)
Theorem X13_finished_means_caught (sim : Simulation.t) (dt : R)
    (dts : list R) (h : Heap) :
  Simulation_wf sim h ->
  Simulation.finished sim = false ->
  let r := Simulation.run sim (dt :: dts) h in
  Simulation.finished (fst r) =
    eval (Pursuer.didCatchTarget (Simulation.pursuer sim)
            (Simulation.target sim)) (snd r).
Proof.
  intros Hwf Hrun r. subst r.
  pose proof (run_shows (dt :: dts) sim h Hwf) as Hshow.
  rewrite Snapshot_run_cons in Hshow.
  pose proof (Snapshot_run_flagged dts _
                (Snapshot_step_flags dt (snapshot sim h) Hrun)) as Hflag.
  rewrite <- Hshow in Hflag. unfold flagged in Hflag.
  destruct (run_objects (dt :: dts) sim h) as [Ht Hp].
  unfold snapshot in Hflag.
  cbn [halted pursuerPosition pursuerDirection targetPosition
       pursuerVisionDistance pursuerVisionAngle] in Hflag.
  rewrite Ht, Hp in Hflag.
  unfold eval. rewrite didCatchTarget_run. exact Hflag.
Qed.

Lemma X13_witness :
  let r := Simulation.run demoSim [1 / 60; 1 / 60] demoHeap in
  Simulation.finished (fst r) =
    eval (Pursuer.didCatchTarget (Simulation.pursuer demoSim)
            (Simulation.target demoSim)) (snd r).
Proof.
  intros r.
  exact (X13_finished_means_caught demoSim (1 / 60) [1 / 60] demoHeap
           demo_wf eq_refl).
Defined.

(** ** Sessions: a resting target, and edits of the settings *)

Section SessionProperties.


Lemma load_store_other (h : Heap) (r r0 : ref) (v : Vector3) :
  r <> r0 -> load (store r0 v h) r = load h r.
Proof.
  intros Hne. change (store r0 v h) with (exec (mutate r0 (fun _ => v)) h).
  now apply load_mutate_other.
Qed.

(** A write to a cell outside a simulation's six vectors is not seen in its
    snapshot, and leaves the object graph well-formed. *)
Lemma snapshot_store_outside (sim : Simulation.t) (h : Heap) (r0 : ref)
    (v : Vector3) :
  ~ In r0 (Simulation_refs sim) ->
  snapshot sim (store r0 v h) = snapshot sim h.
Proof.
  intros Hout. unfold snapshot.
  unfold Simulation_refs, Spaceship_refs, Pursuer_refs in Hout.
  cbn [app In] in Hout.
  rewrite !load_store_other by (intros E; apply Hout; rewrite E; tauto).
  reflexivity.
Qed.

Lemma Simulation_wf_store (sim : Simulation.t) (h : Heap) (r0 : ref)
    (v : Vector3) :
  Simulation_wf sim h -> Simulation_wf sim (store r0 v h).
Proof. intros [Hnd Hal]. split; assumption. Qed.

End SessionProperties.




(** X15: the constructor hands the simulation copies: overwriting, after
    the construction, any vector object that existed before it (a vector
    of the settings, edited in the control panel) changes nothing in what
    the simulation shows, then or after any sequence of frames. *)
Theorem X15_settings_edits_are_not_seen (s : Settings.t) (h : Heap)
    (r0 : ref) (v : Vector3) (dts : list R) :
  Settings_wf s h ->
  allocated h r0 ->
  let sim := eval (Simulation.new s) h in
  let h1 := exec (Simulation.new s) h in
  let plain := Simulation.run sim dts h1 in
  let edited := Simulation.run sim dts (store r0 v h1) in
  snapshot (fst edited) (snd edited) = snapshot (fst plain) (snd plain).
Proof.
  intros Hs Hr0 sim h1 plain edited. subst plain edited.
  destruct (new_snapshot s h Hs) as (Hwf & _ & _ & Hfresh & _).
  fold sim h1 in Hwf, Hfresh.
  assert (Hout : ~ In r0 (Simulation_refs sim)).
  { intros Hin. apply Hfresh in Hin. unfold allocated in Hr0. lia. }
  rewrite !run_shows by (try apply Simulation_wf_store; assumption).
  now rewrite snapshot_store_outside.
Qed.

Lemma demoSettings_wf : Settings_wf demoSettings demoHeap0.
Proof. vm_compute. repeat (apply Forall_cons; [lia |]). apply Forall_nil. Defined.

Lemma X15_witness :
  let edited :=
    Simulation.run demoSim [1 / 60; 1 / 60]
      (store (Settings.targetVelocity demoSettings) (mkVector3 0 50 0)
             demoHeap) in
  let plain := Simulation.run demoSim [1 / 60; 1 / 60] demoHeap in
  snapshot (fst edited) (snd edited) = snapshot (fst plain) (snd plain).
Proof.
  intros edited plain.
  refine (X15_settings_edits_are_not_seen demoSettings demoHeap0
            (Settings.targetVelocity demoSettings) (mkVector3 0 50 0)
            [1 / 60; 1 / 60] demoSettings_wf _).
  unfold allocated. vm_compute. lia.
Defined.

(** ** The methods, case by case *)

Section MethodProperties.

Lemma vadd_zero_r (a : Vector3) : vadd a zero = a.
Proof.
  destruct a as [a1 a2 a3]. unfold vadd, zero; cbn [x y z]. f_equal; ring.
Qed.

Lemma vdot_vscale_r (d : Vector3) (k : R) :
  Pursuer.catchDot d (vscale d k) = k * (vlength d * vlength d).
Proof.
  rewrite vlength_sqr. unfold Pursuer.catchDot, vscale; cbn [x y z]. ring.
Qed.

(** The angle to a target on the line of the direction through the origin:
    [0] ahead, [PI] behind. *)
Lemma catchAngle_along (d : Vector3) (k : R) :
  d <> zero ->
  (0 < k -> Pursuer.catchAngle d (vscale d k) = 0)
  /\ (k < 0 -> Pursuer.catchAngle d (vscale d k) = PI).
Proof.
  intros Hd. pose proof (vlength_pos d Hd) as Hlen.
  assert (Hden : Pursuer.catchDenominator d (vscale d k)
                 = Rabs k * (vlength d * vlength d)).
  { rewrite catchDenominator_lengths, vlength_vscale. ring. }
  assert (Hsq : 0 < vlength d * vlength d) by nra.
  unfold Pursuer.catchAngle. rewrite Hden, vdot_vscale_r.
  split; intros Hk.
  - rewrite Rabs_pos_eq by lra.
    destruct (Req_dec_T (k * (vlength d * vlength d)) 0) as [H0 | _]; [nra |].
    replace (k * (vlength d * vlength d) / (k * (vlength d * vlength d)))
      with 1 by (field; split; lra).
    destruct (Rlt_dec 1 (-1)); [lra |]. destruct (Rgt_dec 1 1); [lra |].
    apply acos_1.
  - rewrite Rabs_left by assumption.
    destruct (Req_dec_T (- k * (vlength d * vlength d)) 0) as [H0 | _];
      [nra |].
    replace (k * (vlength d * vlength d) / (- k * (vlength d * vlength d)))
      with (-1) by (field; split; lra).
    destruct (Rlt_dec (-1) (-1)); [lra |]. destruct (Rgt_dec (-1) 1); [lra |].
    replace (acos (-1)) with (acos (- (1))) by (f_equal; lra).
    rewrite acos_opp, acos_1. ring.
Qed.

End MethodProperties.

(** X2: [Pursuer.update] clears the acceleration accumulator and sets the
    direction to the normalized new velocity, the zero vector when the new
    velocity is the zero vector; objects outside the pursuer's four vectors
    keep their values. *)
Theorem X2_update_resets_and_aims (p : Pursuer.t) (dt : R) (h : Heap) :
  Pursuer_wf p h ->
  let h' := exec (Pursuer.update p dt) h in
  let velocity' := load h' (Pursuer.velocity p) in
  let direction' := load h' (Pursuer.direction p) in
  load h' (Pursuer.acceleration p) = zero
  /\ direction' = vnormalize velocity'
  /\ (velocity' = zero -> direction' = zero)
  /\ (forall r, allocated h r -> ~ In r (Pursuer_refs p) ->
                load h' r = load h r).
Proof.
  intros Hwf h' velocity' direction'.
  destruct (Pursuer_update_effect p dt h Hwf) as (Hv & _ & Ha & Hd & Hf & _).
  fold h' in Hv, Ha, Hd, Hf.
  assert (Hdir : direction' = vnormalize velocity').
  { unfold direction', velocity'. now rewrite Hd, Hv. }
  split; [exact Ha |]. split; [exact Hdir |]. split; [| exact Hf].
  intros Hz. rewrite Hdir, Hz. apply vnormalize_zero.
Qed.

Lemma X2_witness :
  let p := Simulation.pursuer demoSim in
  load (exec (Pursuer.update p (1 / 60)) demoHeap) (Pursuer.acceleration p)
    = zero.
Proof.
  intros p.
  exact (proj1 (X2_update_resets_and_aims p (1 / 60) demoHeap demoPursuer_wf)).
Defined.

(** X4: when the pursuer's velocity already is the desired velocity,
    [maxSpeed] along the normalized offset to the target, [pursueTarget]
    adds the zero vector: every object of the store keeps its value. *)
Theorem X4_on_course_no_force (p : Pursuer.t) (t : Spaceship.t) (h : Heap) :
  allocated h (Pursuer.position p) ->
  allocated h (Pursuer.velocity p) ->
  allocated h (Pursuer.acceleration p) ->
  allocated h (Spaceship.position t) ->
  load h (Pursuer.velocity p) =
    vscale (vnormalize (vsub (load h (Spaceship.position t))
                             (load h (Pursuer.position p))))
           (Pursuer.maxSpeed p) ->
  let h' := exec (Pursuer.pursueTarget p t) h in
  forall r, allocated h r -> load h' r = load h r.
Proof.
  intros Hp Hv Ha Ht Hcourse h' r Hr.
  destruct (pursueTarget_effect p t h Hp Hv Ha Ht) as (Hacc & Hframe & _).
  fold h' in Hacc, Hframe.
  destruct (Nat.eq_dec r (Pursuer.acceleration p)) as [-> | Hne].
  - rewrite Hacc. unfold steeringForce.
    rewrite <- Hcourse, vsub_self, vclampLength_zero. apply vadd_zero_r.
  - now apply Hframe.
Qed.

Lemma X4_witness :
  let p := Simulation.pursuer courseSim in
  let t := Simulation.target courseSim in
  load (exec (Pursuer.pursueTarget p t) courseHeap) (Pursuer.acceleration p)
    = load courseHeap (Pursuer.acceleration p).
Proof.
  intros p t.
  refine (X4_on_course_no_force p t courseHeap _ _ _ _ _
            (Pursuer.acceleration p) _).
  - unfold allocated; vm_compute; lia.
  - unfold allocated; vm_compute; lia.
  - unfold allocated; vm_compute; lia.
  - unfold allocated; vm_compute; lia.
  - replace (load courseHeap (Pursuer.velocity p)) with (mkVector3 20 0 0)
      by (vm_compute; reflexivity).
    replace (load courseHeap (Spaceship.position t)) with (mkVector3 0 0 0)
      by (vm_compute; reflexivity).
    replace (load courseHeap (Pursuer.position p)) with (mkVector3 (-3) 0 0)
      by (vm_compute; reflexivity).
    change (Pursuer.maxSpeed p) with 20.
    assert (Hlen : vlength (vsub (mkVector3 0 0 0) (mkVector3 (-3) 0 0)) = 3).
    { unfold vlength, vsub; cbn [x y z].
      replace ((0 - -3) * (0 - -3) + (0 - 0) * (0 - 0) + (0 - 0) * (0 - 0))
        with (3 * 3) by ring.
      apply sqrt_square; lra. }
    unfold vnormalize, or_else. rewrite Hlen.
    destruct (Req_dec_T 3 0) as [H | _]; [lra |].
    unfold vscale, vsub; cbn [x y z]. f_equal; field.
  - unfold allocated; vm_compute; lia.
Defined.

(** X5: [pursueTarget] accumulates.  When the acceleration is an object
    apart from the two positions and the velocity, a second call adds the
    same force again. *)
Theorem X5_pursueTarget_accumulates (p : Pursuer.t) (t : Spaceship.t)
    (h : Heap) :
  allocated h (Pursuer.position p) ->
  allocated h (Pursuer.velocity p) ->
  allocated h (Pursuer.acceleration p) ->
  allocated h (Spaceship.position t) ->
  Pursuer.position p <> Pursuer.acceleration p ->
  Pursuer.velocity p <> Pursuer.acceleration p ->
  Spaceship.position t <> Pursuer.acceleration p ->
  let force :=
    steeringForce (load h (Pursuer.position p)) (load h (Pursuer.velocity p))
      (load h (Spaceship.position t))
      (Pursuer.maxSpeed p) (Pursuer.maxSteerForce p) in
  let h1 := exec (Pursuer.pursueTarget p t) h in
  let h2 := exec (Pursuer.pursueTarget p t) h1 in
  load h1 (Pursuer.acceleration p) = vadd (load h (Pursuer.acceleration p)) force
  /\ load h2 (Pursuer.acceleration p) =
       vadd (vadd (load h (Pursuer.acceleration p)) force) force.
Proof.
  intros Hp Hv Ha Ht Np Nv Nt force h1 h2.
  destruct (pursueTarget_effect p t h Hp Hv Ha Ht) as (A1 & F1 & N1).
  fold h1 force in A1, F1, N1.
  destruct (pursueTarget_effect p t h1) as (A2 & _);
    try (eapply allocated_mono; eassumption).
  fold h2 in A2.
  split; [exact A1 |].
  rewrite A2, A1, !F1 by assumption. reflexivity.
Qed.

Lemma X5_witness :
  let p := Simulation.pursuer demoSim in
  let t := Simulation.target demoSim in
  let force :=
    steeringForce (load demoHeap (Pursuer.position p))
      (load demoHeap (Pursuer.velocity p))
      (load demoHeap (Spaceship.position t))
      (Pursuer.maxSpeed p) (Pursuer.maxSteerForce p) in
  load (exec (Pursuer.pursueTarget p t) (exec (Pursuer.pursueTarget p t) demoHeap))
       (Pursuer.acceleration p)
    = vadd (vadd (load demoHeap (Pursuer.acceleration p)) force) force.
Proof.
  intros p t force.
  refine (proj2 (X5_pursueTarget_accumulates p t demoHeap _ _ _ _ _ _ _)).
  - unfold allocated; vm_compute; lia.
  - unfold allocated; vm_compute; lia.
  - unfold allocated; vm_compute; lia.
  - unfold allocated; vm_compute; lia.
  - vm_compute. lia.
  - vm_compute. lia.
  - vm_compute. lia.
Defined.

(** X6: a target whose position vector is a positive multiple of a
    non-zero direction is seen at angle [0], and is caught whenever it is
    within [visionDistance] and [visionAngle] is not negative; at a
    negative multiple the angle is [PI], and it is caught within that
    distance only if [visionAngle / 2 >= PI]. *)
Theorem X6_target_on_the_heading_line (this : Pursuer.t)
    (target : Spaceship.t) (k : R) (h : Heap) :
  load h (Pursuer.direction this) <> zero ->
  load h (Spaceship.position target) = vscale (load h (Pursuer.direction this)) k ->
  Pursuer.catchDistance (load h (Pursuer.position this))
      (load h (Spaceship.position target)) <= Pursuer.visionDistance this ->
  let result := eval (Pursuer.didCatchTarget this target) h in
  (0 < k -> 0 <= Pursuer.visionAngle this -> result = true)
  /\ (k < 0 -> (result = true <-> PI <= Pursuer.visionAngle this / 2)).
Proof.
  intros Hd Htp Hnear result.
  pose proof (didCatchTarget_true this target h) as Htrue.
  fold result in Htrue. rewrite Htp in Htrue, Hnear.
  destruct (catchAngle_along (load h (Pursuer.direction this)) k Hd)
    as [Hahead Hbehind].
  split.
  - intros Hk Hva. apply Htrue. rewrite (Hahead Hk). split; [exact Hnear | lra].
  - intros Hk. rewrite Htrue, (Hbehind Hk). tauto.
Qed.

Lemma X6_witness :
  eval (Pursuer.didCatchTarget (Simulation.pursuer originSim)
          (Simulation.target originSim)) aheadHeap = true
  /\ (eval (Pursuer.didCatchTarget (Simulation.pursuer originSim)
              (Simulation.target originSim)) behindHeap = true <->
      PI <= Pursuer.visionAngle (Simulation.pursuer originSim) / 2).
Proof.
  assert (Hne : mkVector3 1 0 0 <> zero).
  { intros E. apply (f_equal x) in E. cbn in E. lra. }
  assert (Hthree : sqrt (3 * 3) = 3) by (apply sqrt_square; lra).
  split.
  - refine (proj1 (X6_target_on_the_heading_line (Simulation.pursuer originSim)
                     (Simulation.target originSim) 3 aheadHeap _ _ _) _ _).
    + replace (load aheadHeap (Pursuer.direction (Simulation.pursuer originSim)))
        with (mkVector3 1 0 0) by (vm_compute; reflexivity).
      exact Hne.
    + replace (load aheadHeap (Pursuer.direction (Simulation.pursuer originSim)))
        with (mkVector3 1 0 0) by (vm_compute; reflexivity).
      replace (load aheadHeap
                 (Spaceship.position (Simulation.target originSim)))
        with (mkVector3 3 0 0) by (vm_compute; reflexivity).
      unfold vscale; cbn [x y z]. f_equal; ring.
    + replace (load aheadHeap (Pursuer.position (Simulation.pursuer originSim)))
        with (mkVector3 0 0 0) by (vm_compute; reflexivity).
      replace (load aheadHeap
                 (Spaceship.position (Simulation.target originSim)))
        with (mkVector3 3 0 0) by (vm_compute; reflexivity).
      change (Pursuer.visionDistance (Simulation.pursuer originSim)) with 5.
      unfold Pursuer.catchDistance; cbn [x y z].
      replace ((0 - 3) * (0 - 3) + (0 - 0) * (0 - 0) + (0 - 0) * (0 - 0))
        with (3 * 3) by ring.
      rewrite Hthree. lra.
    + lra.
    + change (0 <= 45 * (PI / 180)). pose proof PI_RGT_0. lra.
  - refine (proj2 (X6_target_on_the_heading_line (Simulation.pursuer originSim)
                     (Simulation.target originSim) (-3) behindHeap _ _ _) _).
    + replace (load behindHeap (Pursuer.direction (Simulation.pursuer originSim)))
        with (mkVector3 1 0 0) by (vm_compute; reflexivity).
      exact Hne.
    + replace (load behindHeap (Pursuer.direction (Simulation.pursuer originSim)))
        with (mkVector3 1 0 0) by (vm_compute; reflexivity).
      replace (load behindHeap
                 (Spaceship.position (Simulation.target originSim)))
        with (mkVector3 (-3) 0 0) by (vm_compute; reflexivity).
      unfold vscale; cbn [x y z]. f_equal; ring.
    + replace (load behindHeap (Pursuer.position (Simulation.pursuer originSim)))
        with (mkVector3 0 0 0) by (vm_compute; reflexivity).
      replace (load behindHeap
                 (Spaceship.position (Simulation.target originSim)))
        with (mkVector3 (-3) 0 0) by (vm_compute; reflexivity).
      change (Pursuer.visionDistance (Simulation.pursuer originSim)) with 5.
      unfold Pursuer.catchDistance; cbn [x y z].
      replace ((0 - -3) * (0 - -3) + (0 - 0) * (0 - 0) + (0 - 0) * (0 - 0))
        with (3 * 3) by ring.
      rewrite Hthree. lra.
    + lra.
Defined.

(** X7: the angle that [didCatchTarget] computes lies in [[0, PI]].  So
    under a negative [visionAngle] nothing is ever caught, and under a
    [visionAngle] of at least [2 * PI] the test is the distance test
    alone. *)
Theorem X7_angle_range (this : Pursuer.t) (target : Spaceship.t) (h : Heap) :
  let p := load h (Pursuer.position this) in
  let tp := load h (Spaceship.position target) in
  let d := load h (Pursuer.direction this) in
  let result := eval (Pursuer.didCatchTarget this target) h in
  0 <= Pursuer.catchAngle d tp <= PI
  /\ (Pursuer.visionAngle this < 0 -> result = false)
  /\ (2 * PI <= Pursuer.visionAngle this ->
      (result = true <->
       Pursuer.catchDistance p tp <= Pursuer.visionDistance this)).
Proof.
  intros p tp d result.
  pose proof (didCatchTarget_true this target h) as Htrue.
  fold p tp d result in Htrue.
  assert (Hrange : 0 <= Pursuer.catchAngle d tp <= PI)
    by (unfold Pursuer.catchAngle; apply acos_bound).
  split; [exact Hrange |]. split.
  - intros Hneg. destruct result; [| reflexivity].
    destruct (proj1 Htrue eq_refl) as [_ Hbad]. lra.
  - intros Hwide. rewrite Htrue. split; [tauto |].
    intros Hnear. split; [exact Hnear | lra].
Qed.

Lemma X7_witness :
  eval (Pursuer.didCatchTarget blindPursuer (Simulation.target demoSim))
       demoHeap = false
  /\ (eval (Pursuer.didCatchTarget allRoundPursuer (Simulation.target demoSim))
           demoHeap = true <->
      Pursuer.catchDistance (load demoHeap (Pursuer.position allRoundPursuer))
          (load demoHeap (Spaceship.position (Simulation.target demoSim)))
        <= Pursuer.visionDistance allRoundPursuer).
Proof.
  pose proof PI_RGT_0 as Hpi.
  split.
  - refine (proj1 (proj2 (X7_angle_range blindPursuer
                            (Simulation.target demoSim) demoHeap)) _).
    change (-45 * (PI / 180) < 0). lra.
  - refine (proj2 (proj2 (X7_angle_range allRoundPursuer
                            (Simulation.target demoSim) demoHeap)) _).
    change (2 * PI <= 360 * (PI / 180)). lra.
Defined.

(** ** The control panel *)

(** X16: pausing a running simulation freezes it: whatever frames follow
    leave the paused object and the store as they are, and a second press
    gives back the simulation as it was before the first; the button reads
    "Unpause" while paused and "Pause" afterwards. *)
Theorem X16_pause_and_resume (sim : Simulation.t) (dts : list R) (h : Heap) :
  Simulation.finished sim = false ->
  let paused := fst (Pause sim) in
  Simulation.run paused dts h = (paused, h)
  /\ fst (Pause paused) = sim
  /\ snd (Pause sim) = "Unpause"%string
  /\ snd (Pause paused) = "Pause"%string.
Proof.
  intros Hrun paused.
  assert (Hp : Simulation.finished paused = true).
  { unfold paused, Pause. cbn [fst Simulation.finished]. now rewrite Hrun. }
  split; [now apply run_finished |].
  destruct sim as [t p clock fin]. cbn [Simulation.finished] in Hrun.
  subst fin. repeat split.
Qed.

Lemma X16_witness :
  Simulation.run (fst (Pause demoSim)) [1 / 60; 1 / 60] demoHeap =
    (fst (Pause demoSim), demoHeap)
  /\ fst (Pause (fst (Pause demoSim))) = demoSim.
Proof.
  destruct (X16_pause_and_resume demoSim [1 / 60; 1 / 60] demoHeap eq_refl)
    as (Hfrozen & Hback & _).
  split; assumption.
Defined.

(** X17: [finished] is not final.  Pressing Pause on a simulation that
    has finished clears the flag, and the next frame runs: the clock
    advances by [dt], the target moves on by [dt] times its velocity, and
    [finished] is decided anew by [didCatchTarget]. *)
Theorem X17_pause_restarts_a_finished_run (sim : Simulation.t) (dt : R)
    (h : Heap) :
  Simulation_wf sim h ->
  Simulation.finished sim = true ->
  let resumed := fst (Pause sim) in
  let r := Simulation.update resumed dt h in
  snd (Pause sim) = "Pause"%string
  /\ Simulation.time (fst r) = Simulation.time sim + dt
  /\ targetPosition (snapshot (fst r) (snd r)) =
       vadd (targetPosition (snapshot sim h))
            (vscale (targetVelocity (snapshot sim h)) dt)
  /\ Simulation.finished (fst r) =
       eval (Pursuer.didCatchTarget (Simulation.pursuer sim)
               (Simulation.target sim)) (snd r).
Proof.
  intros Hwf Hfin resumed r.
  assert (Hres : Simulation.finished resumed = false).
  { unfold resumed, Pause. cbn [fst Simulation.finished]. now rewrite Hfin. }
  assert (Hwf' : Simulation_wf resumed h) by exact Hwf.
  split; [unfold Pause; cbn [snd fst Simulation.finished]; now rewrite Hfin |].
  pose proof (update_shows dt resumed h Hwf') as Hshow. fold r in Hshow.
  unfold Snapshot_step in Hshow.
  change (halted (snapshot resumed h)) with (Simulation.finished resumed)
    in Hshow.
  rewrite Hres in Hshow.
  split; [| split].
  - change (Simulation.time (fst r)) with (elapsed (snapshot (fst r) (snd r))).
    now rewrite Hshow.
  - now rewrite Hshow.
  - change (Simulation.finished (fst r))
      with (halted (snapshot (fst r) (snd r))).
    rewrite Hshow. cbn [halted].
    unfold eval. rewrite didCatchTarget_run. cbn [fst].
    destruct (update_objects resumed dt h) as [Ht Hp]. fold r in Ht, Hp.
    assert (Hsame : snapshot (fst r) (snd r) = snapshot (fst r) (snd r))
      by reflexivity.
    rewrite Hshow in Hsame at 1.
    apply (f_equal pursuerPosition) in Hsame as Hpp.
    apply (f_equal pursuerDirection) in Hsame as Hpd.
    apply (f_equal targetPosition) in Hsame as Htp.
    cbn [pursuerPosition pursuerDirection targetPosition] in Hpp, Hpd, Htp.
    rewrite Hpp, Hpd, Htp. unfold snapshot.
    cbn [pursuerPosition pursuerDirection targetPosition].
    rewrite Ht, Hp. reflexivity.
Qed.

Lemma finishedSim_wf : Simulation_wf finishedSim demoHeap.
Proof. exact demo_wf. Defined.

Lemma X17_witness :
  Simulation.time
    (fst (Simulation.update (fst (Pause finishedSim)) (1 / 60) demoHeap))
    = Simulation.time finishedSim + 1 / 60.
Proof.
  exact (proj1 (proj2 (X17_pause_restarts_a_finished_run finishedSim (1 / 60)
                         demoHeap finishedSim_wf eq_refl))).
Defined.

(** ** The frame callback *)

Section AnimateFacts.

Lemma eval_read (r : ref) (h : Heap) : eval (read r) h = load h r.
Proof. reflexivity. Qed.

Lemma exec_read (r : ref) (h : Heap) : exec (read r) h = h.
Proof. reflexivity. Qed.

Lemma allocated_not_fresh (h : Heap) (r : ref) : allocated h r -> r <> next h.
Proof. unfold allocated. lia. Qed.

Lemma not_or_both (A B : Prop) : ~ (A \/ B) -> ~ A /\ ~ B.
Proof. tauto. Qed.

End AnimateFacts.

(** Side conditions on named references: by a hypothesis, or because an
    allocated reference is not the fresh one. *)
Ltac solve_named_ref :=
  repeat first
    [ rewrite next_mutate | rewrite next_clone | rewrite next_normalize ];
  first [ reflexivity
        | assumption
        | apply not_eq_sym; assumption
        | apply allocated_not_fresh; assumption
        | apply not_eq_sym; apply allocated_not_fresh; assumption ].

Ltac named_loads :=
  repeat first
    [ rewrite load_mutate_same
    | rewrite load_normalize_same
    | rewrite load_clone_new by solve_named_ref
    | rewrite load_mutate_other by solve_named_ref
    | rewrite load_clone_old by solve_named_ref
    | rewrite load_normalize_other by solve_named_ref ].

Ltac split_distinct :=
  repeat match goal with
    | H : NoDup (_ :: _) |- _ =>
        apply NoDup_cons_iff in H; let H' := fresh "Hd" in destruct H as [H' H]
    end;
  cbn [In] in *;
  repeat match goal with
    | H : ~ (_ \/ _) |- _ => apply not_or_both in H; destruct H
    end.

Section AnimateProperties.

(** What [animate] leaves in the store, cell by cell. *)
Lemma animate_effect (scene : Scene.t) (sim : Simulation.t) (delta : R)
    (h : Heap) :
  Scene_wf scene sim h ->
  let sim1 := eval (Simulation.update sim delta) h in
  let h1 := exec (Simulation.update sim delta) h in
  let h' := exec (animate scene sim delta) h in
  let d := vnormalize (load h1 (Pursuer.velocity (Simulation.pursuer sim))) in
  eval (animate scene sim delta) h = (sim1, acos (y d))
  /\ load h' (Scene.targetMesh_position scene) =
       load h1 (Spaceship.position (Simulation.target sim))
  /\ load h' (Scene.pursuerMesh_position scene) =
       load h1 (Pursuer.position (Simulation.pursuer sim))
  /\ load h' (Scene.visionCone_position scene) =
       load h1 (Pursuer.position (Simulation.pursuer sim))
  /\ load h' (Scene.visionConeAxis scene) = mkVector3 (z d) 0 (- x d)
  /\ (forall r, In r (Simulation_refs sim) -> load h' r = load h1 r).
Proof.
  intros [Hnd Hal] sim1 h1 h' d.
  assert (Hwf : Simulation_wf sim h).
  { split.
    - now apply NoDup_app_remove_l in Hnd.
    - apply Forall_app in Hal. tauto. }
  destruct (update_snapshot sim delta h Hwf) as (Ht & Hp & _ & _ & Hn).
  change (fst (Simulation.update sim delta h)) with sim1 in Ht, Hp.
  change (snd (Simulation.update sim delta h)) with h1 in Hn.
  assert (Hal1 : Forall (allocated h1) (Scene_refs scene ++ Simulation_refs sim)).
  { eapply Forall_impl; [| exact Hal]. intros r. now apply allocated_mono. }
  clear Hal Hwf Hn.
  unfold Scene_refs, Simulation_refs, Spaceship_refs, Pursuer_refs in *.
  cbn [app] in *.
  repeat (apply Forall_cons_iff in Hal1;
          let H := fresh "Ha" in destruct Hal1 as [H Hal1]).
  split_distinct.
  subst h' d. unfold animate, Vector3_set, copy.
  repeat first
    [ rewrite exec_bind | rewrite eval_bind
    | rewrite exec_ret | rewrite eval_ret
    | rewrite eval_read | rewrite exec_read
    | rewrite eval_mutate | rewrite eval_clone | rewrite eval_normalize
    | rewrite next_mutate | rewrite next_clone | rewrite next_normalize ].
  fold sim1 h1. rewrite Ht, Hp.
  split; [| split; [| split; [| split; [| split]]]].
  - named_loads. reflexivity.
  - named_loads. reflexivity.
  - named_loads. reflexivity.
  - named_loads. reflexivity.
  - named_loads. reflexivity.
  - intros r Hin. cbn [In] in Hin.
    repeat (destruct Hin as [<- | Hin]; [named_loads; reflexivity |]).
    contradiction.
Qed.

End AnimateProperties.

(** X18: a frame of [animate] changes the simulation as
    [Simulation.update] alone does, and leaves the two meshes and the cone
    at the positions the simulation then shows: the target mesh at the
    target's position, the pursuer mesh and the cone at the pursuer's. *)
Theorem X18_animate_shows_the_simulation (scene : Scene.t)
    (sim : Simulation.t) (delta : R) (h : Heap) :
  Scene_wf scene sim h ->
  let sim' := fst (eval (animate scene sim delta) h) in
  let h' := exec (animate scene sim delta) h in
  let shown := snapshot sim' h' in
  sim' = eval (Simulation.update sim delta) h
  /\ shown = snapshot sim' (exec (Simulation.update sim delta) h)
  /\ load h' (Scene.targetMesh_position scene) = targetPosition shown
  /\ load h' (Scene.pursuerMesh_position scene) = pursuerPosition shown
  /\ load h' (Scene.visionCone_position scene) = pursuerPosition shown.
Proof.
  intros Hwf sim' h' shown.
  destruct (animate_effect scene sim delta h Hwf)
    as (Hev & Htm & Hpm & Hvc & _ & Hsim).
  fold h' in Htm, Hpm, Hvc, Hsim.
  assert (Hsim' : sim' = eval (Simulation.update sim delta) h)
    by (unfold sim'; now rewrite Hev).
  destruct (update_objects sim delta h) as [Ht Hp].
  change (fst (Simulation.update sim delta h))
    with (eval (Simulation.update sim delta) h) in Ht, Hp.
  rewrite <- Hsim' in Ht, Hp.
  assert (Hshown : shown = snapshot sim' (exec (Simulation.update sim delta) h)).
  { unfold shown, snapshot. rewrite Ht, Hp.
    rewrite !Hsim by (unfold Simulation_refs, Spaceship_refs, Pursuer_refs;
                      cbn [app In]; tauto).
    reflexivity. }
  split; [exact Hsim' |]. split; [exact Hshown |].
  rewrite Hshown. unfold snapshot.
  cbn [targetPosition pursuerPosition]. rewrite Ht, Hp.
  repeat split; assumption.
Qed.

Lemma demoScene_wf : Scene_wf demoScene demoSim demoSceneHeap.
Proof.
  split.
  - vm_compute. repeat (apply NoDup_cons; [cbn [In]; lia |]). apply NoDup_nil.
  - vm_compute. repeat (apply Forall_cons; [lia |]). apply Forall_nil.
Defined.

Lemma X18_witness :
  let sim' := fst (eval (animate demoScene demoSim (1 / 60)) demoSceneHeap) in
  let h' := exec (animate demoScene demoSim (1 / 60)) demoSceneHeap in
  load h' (Scene.targetMesh_position demoScene) =
    targetPosition (snapshot sim' h').
Proof.
  intros sim' h'.
  exact (proj1 (proj2 (proj2 (X18_animate_shows_the_simulation demoScene
                                demoSim (1 / 60) demoSceneHeap demoScene_wf)))).
Defined.

(** X19: the rotation that [animate] hands to the cone.  With [heading]
    the normalized velocity of the pursuer after the frame: the angle is
    [acos] of the heading's y component, within [[0, PI]]; the axis is
    [(heading.z, 0, -heading.x)], horizontal and perpendicular to the
    heading, and its squared length is that of the heading less the square
    of the heading's y component, so it is a unit vector only for a
    horizontal heading.  When the frame ran an update, the heading is the
    pursuer's [direction]. *)
Theorem X19_cone_rotation (scene : Scene.t) (sim : Simulation.t) (delta : R)
    (h : Heap) :
  Scene_wf scene sim h ->
  let sim' := fst (eval (animate scene sim delta) h) in
  let radians := snd (eval (animate scene sim delta) h) in
  let h' := exec (animate scene sim delta) h in
  let heading := vnormalize (pursuerVelocity (snapshot sim' h')) in
  let axis := load h' (Scene.visionConeAxis scene) in
  radians = acos (y heading)
  /\ 0 <= radians <= PI
  /\ axis = mkVector3 (z heading) 0 (- x heading)
  /\ vdot axis heading = 0
  /\ vlength axis * vlength axis =
       vlength heading * vlength heading - y heading * y heading
  /\ (Simulation.finished sim = false ->
      heading = pursuerDirection (snapshot sim' h')).
Proof.
  intros Hwf sim' radians h' heading axis.
  destruct (animate_effect scene sim delta h Hwf)
    as (Hev & _ & _ & _ & Hax & Hsim).
  fold h' in Hax, Hsim.
  assert (Hsim' : sim' = eval (Simulation.update sim delta) h)
    by (unfold sim'; now rewrite Hev).
  destruct (update_objects sim delta h) as [Ht Hp].
  change (fst (Simulation.update sim delta h))
    with (eval (Simulation.update sim delta) h) in Ht, Hp.
  rewrite <- Hsim' in Ht, Hp.
  assert (Hin : forall r, In r (Pursuer_refs (Simulation.pursuer sim)) ->
                  In r (Simulation_refs sim)).
  { intros r Hr. unfold Simulation_refs. apply in_or_app. now right. }
  assert (Hvel : pursuerVelocity (snapshot sim' h') =
                 load (exec (Simulation.update sim delta) h)
                      (Pursuer.velocity (Simulation.pursuer sim))).
  { unfold snapshot; cbn [pursuerVelocity]. rewrite Hp.
    apply Hsim, Hin. unfold Pursuer_refs; cbn [In]; tauto. }
  assert (Hhead : heading =
                  vnormalize (load (exec (Simulation.update sim delta) h)
                                (Pursuer.velocity (Simulation.pursuer sim))))
    by (unfold heading; now rewrite Hvel).
  assert (Haxis : axis = mkVector3 (z heading) 0 (- x heading))
    by (unfold axis; now rewrite Hax, Hhead).
  assert (Hrad : radians = acos (y heading))
    by (unfold radians; rewrite Hev, Hhead; reflexivity).
  split; [exact Hrad |].
  split; [rewrite Hrad; apply acos_bound |].
  split; [exact Haxis |].
  split; [rewrite Haxis; unfold vdot; cbn [x y z]; ring |].
  split.
  - rewrite !vlength_sqr, Haxis. cbn [x y z]. ring.
  - intros Hrun.
    destruct Hwf as [Hnd Hal].
    assert (Hswf : Simulation_wf sim h).
    { split.
      - now apply NoDup_app_remove_l in Hnd.
      - apply Forall_app in Hal. tauto. }
    pose proof (update_shows delta sim h Hswf) as Hshow.
    apply (f_equal (fun s => (pursuerDirection s, pursuerVelocity s)))
      in Hshow.
    unfold Snapshot_step in Hshow.
    change (halted (snapshot sim h)) with (Simulation.finished sim) in Hshow.
    rewrite Hrun in Hshow. cbn [pursuerDirection pursuerVelocity] in Hshow.
    injection Hshow as Hd Hv.
    change (fst (Simulation.update sim delta h))
      with (eval (Simulation.update sim delta) h) in Hd, Hv.
    change (snd (Simulation.update sim delta h))
      with (exec (Simulation.update sim delta) h) in Hd, Hv.
    rewrite <- Hsim' in Hd, Hv.
    unfold snapshot in Hd, Hv. cbn [pursuerDirection pursuerVelocity] in Hd, Hv.
    rewrite Hp in Hd, Hv.
    unfold snapshot at 1. cbn [pursuerDirection]. rewrite Hp.
    rewrite (Hsim (Pursuer.direction (Simulation.pursuer sim)))
      by (apply Hin; unfold Pursuer_refs; cbn [In]; tauto).
    rewrite Hhead, Hd, Hv. reflexivity.
Qed.

Lemma X19_witness :
  let radians := snd (eval (animate demoScene demoSim (1 / 60)) demoSceneHeap) in
  0 <= radians <= PI.
Proof.
  intros radians.
  exact (proj1 (proj2 (X19_cone_rotation demoScene demoSim (1 / 60)
                         demoSceneHeap demoScene_wf))).
Defined.
